(** * CardTraders-infra: the seeding scripts, embedded and verified

    Two Python scripts populate a MongoDB database:

    - [infra/scripts/seed_uploaded_card.py] draws an id from a named sequence
      counter and inserts one card listing;
    - [infra/scripts/seed_mongo_user.py] assembles a user document and upserts
      it by e-mail.

    The scripts are embedded as functions over an explicit database state.
    BSON documents are association lists in field order, a collection is the
    list of its documents in insertion order, and the calls the scripts make
    to the driver ([find_one_and_update], [update_one], [insert_one],
    [create_index]) are given the meaning MongoDB documents for them, for the
    fragment the scripts use: equality filters on top-level fields and the
    operators [$set], [$setOnInsert] and [$inc] on top-level fields. *)

From Stdlib Require Import ZArith NArith Ascii String List Bool Lia.
From stdpp Require Import base option list strings numbers.

Set Warnings "-register-all".

Open Scope string_scope.
Open Scope list_scope.
Open Scope Z_scope.

(** ** BSON values and documents *)

(** The values the two scripts store.  A date is its number of milliseconds
    since the epoch, the resolution of a BSON date; an ObjectId is its bytes.
    The store has further kinds of values that the scripts never write
    (doubles, Decimal128, binary data, ...): they are not modelled, and a
    statement that depends on the kind of a stored value says which kinds it
    covers. *)
Inductive value :=
| VNull
| VBool (b : bool)
| VInt (z : Z)
| VStr (s : string)
| VDate (ms : Z)
| VOid (id : string)
| VList (l : list value)
| VDoc (d : list (string * value)).

Definition doc := list (string * value).

(** Equality of values as the server compares them in an equality filter:
    embedded documents are equal when they have the same fields with equal
    values in the same order. *)
Fixpoint value_eqb (x y : value) : bool :=
  match x, y with
  | VNull, VNull => true
  | VBool a, VBool b => Bool.eqb a b
  | VInt a, VInt b => Z.eqb a b
  | VStr a, VStr b => String.eqb a b
  | VDate a, VDate b => Z.eqb a b
  | VOid a, VOid b => String.eqb a b
  | VList l1, VList l2 =>
      (fix go (l1 l2 : list value) : bool :=
         match l1, l2 with
         | [], [] => true
         | a :: l1', b :: l2' => value_eqb a b && go l1' l2'
         | _, _ => false
         end) l1 l2
  | VDoc d1, VDoc d2 =>
      (fix go (d1 d2 : list (string * value)) : bool :=
         match d1, d2 with
         | [], [] => true
         | (k1, a) :: d1', (k2, b) :: d2' =>
             String.eqb k1 k2 && value_eqb a b && go d1' d2'
         | _, _ => false
         end) d1 d2
  | _, _ => false
  end.

(** [d.get(k)] / [d[k]] on a Python dict or a stored document. *)
Fixpoint doc_get (k : string) (d : doc) : option value :=
  match d with
  | [] => None
  | (k', v) :: d' => if String.eqb k k' then Some v else doc_get k d'
  end.

(** Assignment of one field: an existing field keeps its place, a new field
    goes last. *)
Fixpoint doc_set (k : string) (v : value) (d : doc) : doc :=
  match d with
  | [] => [(k, v)]
  | (k', v') :: d' =>
      if String.eqb k k' then (k, v) :: d' else (k', v') :: doc_set k v d'
  end.

Definition doc_keys (d : doc) : list string := map fst d.

(** ** The Python fragments the scripts rely on *)

(** Truth value of an object, as [or] and [if] test it. *)
Definition truthy (v : value) : bool :=
  match v with
  | VNull => false
  | VBool b => b
  | VInt z => negb (Z.eqb z 0)
  | VStr s => negb (String.eqb s "")
  | VDate _ => true
  | VOid _ => true
  | VList l => match l with [] => false | _ => true end
  | VDoc d => match d with [] => false | _ => true end
  end.

(** [a or b]. *)
Definition py_or (a b : value) : value := if truthy a then a else b.

(** [x.get(k)] as a value: a missing key reads as [None]. *)
Definition py_get (k : string) (d : doc) : value :=
  match doc_get k d with Some v => v | None => VNull end.

(** Exceptions that end a run. *)
Inductive exn :=
| SystemExit (code : Z)
| WriteError (code : Z) (path : string)
| DuplicateKeyError (index : string)
| OperationFailure (code : Z)
| InvalidId
| KeyError (key : string)
| TypeError
| ValueError
| AttributeError.

Inductive result (A : Type) :=
| Ok (a : A)
| Err (e : exn).
Arguments Ok {A} a.
Arguments Err {A} e.

(** [int(v)].  Only the numeric cases are modelled: a counter that was
    incremented holds an integer, so [next_seq] never reaches the conversion
    of a string (see [next_seq_outcome]). *)
Definition py_int (v : value) : result Z :=
  match v with
  | VInt z => Ok z
  | VBool b => Ok (Z.b2z b)
  | VStr _ => Err ValueError
  | _ => Err TypeError
  end.

(** [d[k]]. *)
Definition py_item (k : string) (d : doc) : result value :=
  match doc_get k d with Some v => Ok v | None => Err (KeyError k) end.

(** [str.lower()] of a string of ASCII characters: the letters [A]-[Z] are
    mapped to [a]-[z].  Beyond ASCII, [str.lower()] follows the Unicode case
    mappings, which are not modelled: a statement that depends on the result
    of [lower] on such a string says so. *)
Definition lower_ascii (c : ascii) : ascii :=
  let n := nat_of_ascii c in
  if (65 <=? n)%nat && (n <=? 90)%nat then ascii_of_nat (n + 32) else c.

Fixpoint lower (s : string) : string :=
  match s with
  | EmptyString => EmptyString
  | String c s' => String (lower_ascii c) (lower s')
  end.

(** [s[:n]]. *)
Definition py_prefix (n : nat) (s : string) : string := substring 0 n s.

(** ** Results as a monad *)

#[global] Instance result_ret : MRet result := λ A a, Ok a.
#[global] Instance result_bind : MBind result :=
  λ A B f r, match r with Ok a => f a | Err e => Err e end.

(** ** The document store *)

(** *** Filters *)

(** An equality filter [{k1: v1, ...}] selects the documents whose field
    [ki] equals [vi] for every [i]; a missing field compares as null. *)
Definition matches (q d : doc) : bool :=
  forallb (λ '(k, v), value_eqb (py_get k d) v) q.

(** Position of the first document a filter selects. *)
Fixpoint find_doc (q : doc) (ds : list doc) : option nat :=
  match ds with
  | [] => None
  | d :: ds' => if matches q d then Some 0%nat else S <$> find_doc q ds'
  end.

(** [find_one(q)]: the first document a filter selects. *)
Fixpoint find_one (q : doc) (ds : list doc) : option doc :=
  match ds with
  | [] => None
  | d :: ds' => if matches q d then Some d else find_one q ds'
  end.

(** *** Update documents *)

(** One field of one update operator. *)
Inductive modifier :=
| MSet (path : string) (v : value)
| MSetOnInsert (path : string) (v : value)
| MInc (path : string) (by_ : value).

Definition mod_path (m : modifier) : string :=
  match m with
  | MSet p _ | MSetOnInsert p _ | MInc p _ => p
  end.

(** Server error codes used below. *)
Definition FailedToParse : Z := 9.
Definition TypeMismatch : Z := 14.
Definition ConflictingUpdateOperators : Z := 40.

(** The fields of one operator of an update document. *)
Definition read_operator (op : string) (payload : value) : result (list modifier) :=
  match payload with
  | VDoc fields =>
      if String.eqb op "$set" then Ok (map (λ '(k, v), MSet k v) fields)
      else if String.eqb op "$setOnInsert" then Ok (map (λ '(k, v), MSetOnInsert k v) fields)
      else if String.eqb op "$inc" then Ok (map (λ '(k, v), MInc k v) fields)
      else Err (WriteError FailedToParse op)
  | _ => Err (WriteError FailedToParse op)
  end.

(** The modifiers of an update document [{"$op": {field: value, ...}, ...}],
    operator by operator, field by field. *)
Fixpoint read_update (u : doc) : result (list modifier) :=
  match u with
  | [] => Ok []
  | (op, payload) :: u' =>
      ms ← read_operator op payload;
      ms' ← read_update u';
      Ok (ms ++ ms')
  end.

(** The first path that an update names a second time, if any. *)
Fixpoint first_conflict (seen : list string) (ms : list modifier) : option string :=
  match ms with
  | [] => None
  | m :: ms' =>
      if existsb (String.eqb (mod_path m)) seen then Some (mod_path m)
      else first_conflict (mod_path m :: seen) ms'
  end.

(** The server refuses an update in which two modifiers name the same path
    ("Updating the path 'p' would create a conflict at 'p'"). *)
Definition check_conflicts (ms : list modifier) : result unit :=
  match first_conflict [] ms with
  | Some p => Err (WriteError ConflictingUpdateOperators p)
  | None => Ok tt
  end.

(** An update document as the server accepts it: read, then checked. *)
Definition parse_update (u : doc) : result (list modifier) :=
  ms ← read_update u;
  check_conflicts ms;;
  Ok ms.

(** Effect of one modifier on a document.  [inserting] tells whether the
    document is being created by an upsert.  [$inc] creates a missing field
    with the increment as its value and refuses a field that is not a
    number. *)
Definition apply_modifier (inserting : bool) (m : modifier) (d : doc) : result doc :=
  match m with
  | MSet p v => Ok (doc_set p v d)
  | MSetOnInsert p v => Ok (if inserting then doc_set p v d else d)
  | MInc p (VInt n) =>
      match doc_get p d with
      | None => Ok (doc_set p (VInt n) d)
      | Some (VInt z) => Ok (doc_set p (VInt (z + n)) d)
      | Some _ => Err (WriteError TypeMismatch p)
      end
  | MInc p _ => Err (WriteError TypeMismatch p)
  end.

Fixpoint apply_modifiers (inserting : bool) (ms : list modifier) (d : doc) : result doc :=
  match ms with
  | [] => Ok d
  | m :: ms' => d' ← apply_modifier inserting m d; apply_modifiers inserting ms' d'
  end.

(** *** Unique indexes *)

Record index := { idx_name : string; idx_field : string }.

Definition index_eqb (a b : index) : bool :=
  String.eqb (idx_name a) (idx_name b) && String.eqb (idx_field a) (idx_field b).

(** Two documents collide on an index when they hold equal values in its
    field (a missing field counts as null). *)
Definition collides (ix : index) (d d' : doc) : bool :=
  value_eqb (py_get (idx_field ix) d) (py_get (idx_field ix) d').

(** The first index on which [d] collides with one of [others]. *)
Fixpoint violated (ixs : list index) (d : doc) (others : list doc) : option index :=
  match ixs with
  | [] => None
  | ix :: ixs' =>
      if existsb (collides ix d) others then Some ix else violated ixs' d others
  end.

Definition check_unique (ixs : list index) (d : doc) (others : list doc) : result unit :=
  match violated ixs d others with
  | Some ix => Err (DuplicateKeyError (idx_name ix))
  | None => Ok tt
  end.

(** Does a collection hold two documents that collide on [ix]? *)
Fixpoint has_duplicates (ix : index) (ds : list doc) : bool :=
  match ds with
  | [] => false
  | d :: ds' => existsb (collides ix d) ds' || has_duplicates ix ds'
  end.

(** *** The write of one document *)

(** What a single-document write reports. *)
Record report := {
  rep_before : option doc;
  rep_after : option doc;
  rep_upserted_id : option value;
  rep_generated : bool
}.

Definition no_write : report :=
  {| rep_before := None; rep_after := None; rep_upserted_id := None;
     rep_generated := false |}.

(** The twelve bytes of the [n]-th ObjectId of a generator: distinct while
    fewer than [2^96] were handed out. *)
Fixpoint le_bytes (k : nat) (n : N) : string :=
  match k with
  | O => EmptyString
  | S k' => String (ascii_of_N (n mod 256)) (le_bytes k' (n / 256)%N)
  end.

Definition generated_oid (n : N) : value := VOid (le_bytes 12 n).

(** A document created by an upsert gets a generated [_id] unless the filter
    fixed one.  A generated ObjectId is new by construction, so the [_id]
    index can only reject an [_id] the caller chose; the scripts choose one
    only in the filter of the counter upsert, where no document with that
    [_id] exists when the insert happens. *)
Definition with_id (fresh : N) (d : doc) : doc :=
  match doc_get "_id" d with
  | Some _ => d
  | None => ("_id", generated_oid fresh) :: d
  end.

Definition lacks_id (d : doc) : bool :=
  match doc_get "_id" d with Some _ => false | None => true end.

(** The write phase of [update_one] and [find_one_and_update]: the first
    document selected by [q] is modified in place; with [upsert] and no
    selected document, a document is created from the filter's fields and
    appended. *)
Definition write_one (ixs : list index) (fresh : N) (ds : list doc)
    (q : doc) (ms : list modifier) (upsert : bool) : result (list doc * report) :=
  match find_doc q ds with
  | Some i =>
      match ds !! i with
      | Some d =>
          d' ← apply_modifiers false ms d;
          check_unique ixs d' (delete i ds);;
          Ok (<[i := d']> ds,
              {| rep_before := Some d; rep_after := Some d'; rep_upserted_id := None;
                 rep_generated := false |})
      | None => Ok (ds, no_write)
      end
  | None =>
      if upsert then
        d0 ← apply_modifiers true ms q;
        let d' := with_id fresh d0 in
        check_unique ixs d' ds;;
        Ok (ds ++ [d'],
            {| rep_before := None; rep_after := Some d';
               rep_upserted_id := Some (py_get "_id" d');
               rep_generated := lacks_id d0 |})
      else Ok (ds, no_write)
  end.

(** A single-document update as the server runs it: the update document is
    parsed and checked first, whatever the collection holds. *)
Definition modify_one (ixs : list index) (fresh : N) (ds : list doc)
    (q u : doc) (upsert : bool) : result (list doc * report) :=
  ms ← parse_update u;
  write_one ixs fresh ds q ms upsert.

(** ** The database and the runs over it *)

(** The three collections of database [cardtraders].  Unique indexes exist
    where a script creates them, on [users].  [next_oid] is the source of
    generated ObjectIds. *)
Inductive collection := users | counters | uploadedCards.

Record database := {
  db_users : list doc;
  db_users_indexes : list index;
  db_counters : list doc;
  db_uploadedCards : list doc;
  next_oid : N
}.

Definition empty_db : database :=
  {| db_users := []; db_users_indexes := []; db_counters := [];
     db_uploadedCards := []; next_oid := 0 |}.

Definition get_docs (c : collection) (db : database) : list doc :=
  match c with
  | users => db_users db
  | counters => db_counters db
  | uploadedCards => db_uploadedCards db
  end.

Definition get_indexes (c : collection) (db : database) : list index :=
  match c with
  | users => db_users_indexes db
  | _ => []
  end.

Definition set_docs (c : collection) (ds : list doc) (db : database) : database :=
  match c with
  | users =>
      {| db_users := ds; db_users_indexes := db_users_indexes db;
         db_counters := db_counters db; db_uploadedCards := db_uploadedCards db;
         next_oid := next_oid db |}
  | counters =>
      {| db_users := db_users db; db_users_indexes := db_users_indexes db;
         db_counters := ds; db_uploadedCards := db_uploadedCards db;
         next_oid := next_oid db |}
  | uploadedCards =>
      {| db_users := db_users db; db_users_indexes := db_users_indexes db;
         db_counters := db_counters db; db_uploadedCards := ds;
         next_oid := next_oid db |}
  end.

Definition set_users_indexes (ixs : list index) (db : database) : database :=
  {| db_users := db_users db; db_users_indexes := ixs;
     db_counters := db_counters db; db_uploadedCards := db_uploadedCards db;
     next_oid := next_oid db |}.

(** The generator moves on when an ObjectId was handed out. *)
Definition took_oid (used : bool) (db : database) : database :=
  if used then
    {| db_users := db_users db; db_users_indexes := db_users_indexes db;
       db_counters := db_counters db; db_uploadedCards := db_uploadedCards db;
       next_oid := N.succ (next_oid db) |}
  else db.

(** What a run writes to its console: one event per [print], the line being
    the concatenation of its pieces.  [Str v] stands for [str(v)] of a stored
    value, whose rendering is left as it is. *)
Inductive piece :=
| Text (s : string)
| Str (v : value).

Inductive event :=
| Stdout (line : list piece)
| Stderr (line : list piece).

(** A run: from a database to the lines printed, the database left behind and
    either a value or the exception that ended the run.  What was printed and
    written before an exception stays. *)
Definition M (A : Type) : Type := database → list event * database * result A.

#[global] Instance M_ret : MRet M := λ A a db, ([], db, Ok a).
#[global] Instance M_bind : MBind M := λ A B f m db,
  match m db with
  | (o1, db1, Ok a) =>
      match f a db1 with (o2, db2, r) => (o1 ++ o2, db2, r) end
  | (o1, db1, Err e) => (o1, db1, Err e)
  end.

Definition raise {A} (e : exn) : M A := λ db, ([], db, Err e).
Definition lift {A} (r : result A) : M A := λ db, ([], db, r).
Definition emit (ev : event) : M unit := λ db, ([ev], db, Ok tt).
Definition print (line : list piece) : M unit := emit (Stdout line).

(** *** The driver calls *)

Inductive ReturnDocument := BEFORE | AFTER.

(** The exception of a refused command: [findAndModify] is a command, whose
    failure the driver raises as [OperationFailure] with the server's code
    (and as [DuplicateKeyError] for a duplicate key); [WriteError] is the
    subclass raised for a refused write of [update_one] or [insert_one]. *)
Definition command_error (e : exn) : exn :=
  match e with
  | WriteError code _ => OperationFailure code
  | _ => e
  end.

(** [db[c].find_one_and_update(q, u, upsert=..., return_document=...)]. *)
Definition find_one_and_update (c : collection) (q u : doc) (upsert : bool)
    (return_document : ReturnDocument) : M (option doc) := λ db,
  match modify_one (get_indexes c db) (next_oid db) (get_docs c db) q u upsert with
  | Err e => ([], db, Err (command_error e))
  | Ok (ds, rep) =>
      ([], took_oid (rep_generated rep) (set_docs c ds db),
       Ok (match return_document with
           | BEFORE => rep_before rep
           | AFTER => rep_after rep
           end))
  end.

(** [db[c].update_one(q, u, upsert=...)]; the value is [upserted_id] of the
    driver's result. *)
Definition update_one (c : collection) (q u : doc) (upsert : bool) : M (option value) := λ db,
  match modify_one (get_indexes c db) (next_oid db) (get_docs c db) q u upsert with
  | Err e => ([], db, Err e)
  | Ok (ds, rep) =>
      ([], took_oid (rep_generated rep) (set_docs c ds db), Ok (rep_upserted_id rep))
  end.

(** A dict as the driver writes it for an insert: the [_id] comes first, the
    other fields follow in the order of the dict. *)
Definition id_first (d : doc) : doc :=
  match doc_get "_id" d with
  | Some v => ("_id", v) :: List.filter (λ kv, negb (String.eqb (fst kv) "_id")) d
  | None => d
  end.

(** [db[c].insert_one(d)].  The driver adds a generated [_id] to the dict it
    is given when it has none, as its last key; the value is that dict after
    the call.  The document stored has the [_id] as its first field. *)
Definition insert_one (c : collection) (d : doc) : M doc := λ db,
  let d' := if lacks_id d then d ++ [("_id", generated_oid (next_oid db))] else d in
  match check_unique (get_indexes c db) (id_first d') (get_docs c db) with
  | Err e => ([], took_oid (lacks_id d) db, Err e)
  | Ok _ =>
      ([], took_oid (lacks_id d) (set_docs c (get_docs c db ++ [id_first d']) db),
       Ok d')
  end.

(** [users.create_index([(field, ASCENDING)], name=name, unique=True)].
    Creating an index that exists under the same name is a no-op; an index of
    the same name or on the same field with a different definition is refused
    (codes 86 and 85); a unique index cannot be built over duplicates. *)
Definition IndexOptionsConflict : Z := 85.
Definition IndexKeySpecsConflict : Z := 86.

Definition create_index (field name : string) : M string := λ db,
  let ix := {| idx_name := name; idx_field := field |} in
  let ixs := db_users_indexes db in
  if existsb (index_eqb ix) ixs then ([], db, Ok name)
  else if existsb (λ ix', String.eqb (idx_name ix') name) ixs
  then ([], db, Err (OperationFailure IndexKeySpecsConflict))
  else if existsb (λ ix', String.eqb (idx_field ix') field) ixs
  then ([], db, Err (OperationFailure IndexOptionsConflict))
  else if has_duplicates ix (db_users db) then ([], db, Err (DuplicateKeyError name))
  else ([], set_users_indexes (ixs ++ [ix]) db, Ok name).

(** * seed_uploaded_card.py *)

Module SeedUploadedCard.

(** [next_seq(db, name)]: one [find_one_and_update] on [counters] that
    increments [seq] of the document [_id = name], creating the document when
    there is none, and returns the document after the update; the result is
    [int(res.get("seq") or 1)]. *)
Definition next_seq (name : string) : M Z :=
  res ← find_one_and_update counters
          [("_id", VStr name)]
          [("$inc", VDoc [("seq", VInt 1)])]
          true AFTER;
  match res with
  | None => raise AttributeError
  | Some res => lift (py_int (py_or (py_get "seq" res) (VInt 1)))
  end.

(** The card document of [main], given the id drawn and the clock. *)
Definition card_doc (id now : Z) : doc :=
  [ ("id", VInt id);
    ("category", VStr "pokemon");
    ("card_name", VStr "Pikachu (Illustration Rare)");
    ("rarity", VStr "Illustration Rare");
    ("language", VStr "en");
    ("set", VStr "SVP Black Star Promos");
    ("card_num", VStr "SVP 085");
    ("createdAt", VDate now) ].

(** [main()], from the first call on [db]: the client of
    [MongoClient(MONGO_URI)] is taken to be there.  [now] is
    [datetime.now(timezone.utc)] to the millisecond, which is what the store
    keeps of it; the dict that is printed is shown with the same clock. *)
Definition main (now : Z) : M unit :=
  id ← next_seq "uploadedCards";
  let doc := card_doc id now in
  doc ← insert_one uploadedCards doc;
  print [Text "Inserted: "; Str (VDoc doc)].

End SeedUploadedCard.

(** * seed_mongo_user.py *)

(** ** [bson.ObjectId] *)

Definition hex_digit (c : ascii) : option N :=
  let n := N_of_ascii c in
  if (48 <=? n)%N && (n <=? 57)%N then Some (n - 48)%N
  else if (97 <=? n)%N && (n <=? 102)%N then Some (n - 87)%N
  else if (65 <=? n)%N && (n <=? 70)%N then Some (n - 55)%N
  else None.

(** ASCII whitespace: space, tab, line feed, vertical tab, form feed and
    carriage return. *)
Definition is_space (c : ascii) : bool :=
  let n := N_of_ascii c in
  (n =? 32)%N || ((9 <=? n)%N && (n <=? 13)%N).

(** [bytes.fromhex(s)]: two hexadecimal digits give one byte; ASCII
    whitespace is skipped where a byte may start, not between the two digits
    of a byte; anything else raises [ValueError], here [None]. *)
Fixpoint fromhex (s : string) : option string :=
  match s with
  | EmptyString => Some EmptyString
  | String c s' =>
      if is_space c then fromhex s'
      else
        match s' with
        | EmptyString => None
        | String c' s'' =>
            match hex_digit c, hex_digit c' with
            | Some hi, Some lo =>
                String (ascii_of_N (16 * hi + lo)) <$> fromhex s''
            | _, _ => None
            end
        end
  end.

(** [ObjectId(s)] for a string, as the constructor validates it: a string of
    length 24 that [bytes.fromhex] accepts is the ObjectId of the bytes read,
    any other string raises [InvalidId]. *)
Definition ObjectId (s : string) : result value :=
  if Nat.eqb (String.length s) 24 then
    match fromhex s with
    | Some b => Ok (VOid b)
    | None => Err InvalidId
    end
  else Err InvalidId.

(** ** [bcrypt] *)

(** The two library functions the script calls.  Strings are byte strings, so
    [.encode("utf-8")] and [.decode("utf-8")] are the identity.  [gensalt]
    takes the cost and the random bytes it draws.  [hashpw] is taken to
    return: a version of the library that refuses a password (one longer than
    72 bytes) ends the run there, which is not modelled. *)
Class Bcrypt := {
  hashpw : string → string → string;
  gensalt : nat → string → string
}.

Module SeedMongoUser.

(** What [parse_args()] returns. *)
Record Namespace := {
  email : string;
  password : string;
  username : string;
  phone_num : string;
  address : string;
  pfp_url : option string;
  notification : bool;
  starred : list string;
  blocked : list string;
  premade : list string;
  signup_date : string;
  user_id : option string
}.

(** The defaults of [parse_args]; [today] is
    [datetime.now().strftime("%Y/%m/%d")]. *)
Definition default_args (today : string) : Namespace :=
  {| email := "test@cardtraders.app";
     password := "Test1234!";
     username := "test-user";
     phone_num := "010-0000-0000";
     address := "서울특별시 어딘가 123";
     pfp_url := None;
     notification := true;
     starred := [];
     blocked := [];
     premade := ["안녕하세요"; "구매 가능합니다"];
     signup_date := today;
     user_id := None |}.

(** What a run reads from outside: the two environment variables, the clock
    (to the millisecond, as the store keeps it), [uuid.uuid4().hex] and the
    random bytes of the salt. *)
Record environ := {
  MONGODB_URI : option string;
  MONGO_URI : option string;
  now : Z;
  uuid4_hex : string;
  urandom : string
}.

(** [a or b] on optional strings: [None] and the empty string are false. *)
Definition str_or (a b : option string) : option string :=
  match a with
  | Some EmptyString | None => b
  | Some _ => a
  end.

(** [get_client()]; the client is its connection string.  [MongoClient(uri)]
    is taken to return: a connection string that it refuses ends the run
    there, which is not modelled. *)
Definition get_client (e : environ) : M string :=
  match str_or (MONGODB_URI e) (MONGO_URI e) with
  | Some EmptyString | None =>
      emit (Stderr [Text "ERROR: Please set MONGODB_URI env var."]);;
      raise (SystemExit 1)
  | Some uri => mret uri
  end.

(** [ensure_indexes(users)]. *)
Definition ensure_indexes : M unit :=
  create_index "email" "uniq_email";;
  create_index "userId" "idx_userId";;
  mret tt.

(** [args.user_id or f"usr_{uuid.uuid4().hex[:12]}"]. *)
Definition resolve_user_id (args : Namespace) (e : environ) : string :=
  match str_or (user_id args) (Some ("usr_" +:+ py_prefix 12 (uuid4_hex e))) with
  | Some s => s
  | None => EmptyString
  end.

(** The loop over [args.starred]: [starred] is the list built so far. *)
Fixpoint starred_loop (ss : list string) (starred : list value) : M (list value) :=
  match ss with
  | [] => mret starred
  | s :: ss' =>
      match ObjectId s with
      | Ok oid => starred_loop ss' (starred ++ [oid])
      | Err _ =>
          print [Text ("WARN: skipping invalid ObjectId in --starred: " +:+ s)];;
          starred_loop ss' starred
      end
  end.

Definition opt_str (o : option string) : value :=
  match o with Some s => VStr s | None => VNull end.

(** The dict [doc] of [main]. *)
Definition user_doc (args : Namespace) (user_id pw_hash : string)
    (starred : list value) (now : Z) : doc :=
  [ ("userId", VStr user_id);
    ("username", VStr (username args));
    ("email", VStr (lower (email args)));
    ("password", VStr pw_hash);
    ("phone_num", VStr (phone_num args));
    ("address", VStr (address args));
    ("signup_date", VStr (signup_date args));
    ("suggested_num", VInt 0);
    ("starred_item", VList starred);
    ("messages", VList []);
    ("premade_messages", VList (map VStr (premade args)));
    ("notification", VBool (notification args));
    ("blocked_users", VList (map VStr (blocked args)));
    ("pfp", VDoc [ ("url", opt_str (pfp_url args));
                   ("storage", if truthy (opt_str (pfp_url args))
                               then VStr "url" else VNull) ]);
    ("createdAt", VDate now);
    ("updatedAt", VDate now) ].

(** The update document of the upsert. *)
Definition upsert_update (d : doc) (user_id : string) : doc :=
  [ ("$set", VDoc d); ("$setOnInsert", VDoc [("userId", VStr user_id)]) ].

(** The filter of the upsert. *)
Definition upsert_filter (key : value) : doc := [("email", key)].

Section Main.
Context `{Bcrypt}.

(** [main()]. *)
Definition main (args : Namespace) (e : environ) : M unit :=
  client ← get_client e;
  ensure_indexes;;
  let now := now e in
  let user_id := resolve_user_id args e in
  let pw_hash := hashpw (password args) (gensalt 12 (urandom e)) in
  starred ← starred_loop (starred args) [];
  let doc := user_doc args user_id pw_hash starred now in
  key ← lift (py_item "email" doc);
  upserted_id ← update_one users (upsert_filter key) (upsert_update doc user_id) true;
  (if truthy (default VNull upserted_id)
   then print [Text "Inserted user with _id="; Str (default VNull upserted_id);
               Text " email="; Str key; Text (" userId=" +:+ user_id)]
   else print [Text "Updated user email="; Str key; Text (" userId=" +:+ user_id)]);;
  print [Text "Done."].

End Main.

End SeedMongoUser.

(** * Vocabulary of the properties *)

(** The value a counter holds: the [seq] of the counter document, and 0 for
    a counter that does not exist yet or has no [seq].  [None] when [seq] is
    not an integer. *)
Definition seq_of (d : doc) : option Z :=
  match doc_get "seq" d with
  | None => Some 0
  | Some (VInt v) => Some v
  | Some _ => None
  end.

Definition counter_value (name : string) (db : database) : option Z :=
  match find_one [("_id", VStr name)] (db_counters db) with
  | None => Some 0
  | Some d => seq_of d
  end.

(** A counter nobody has drawn from. *)
Definition fresh_counter (name : string) (db : database) : Prop :=
  find_one [("_id", VStr name)] (db_counters db) = None.

(** Runs one after the other, collecting their values. *)
Fixpoint sequence {A} (ms : list (M A)) : M (list A) :=
  match ms with
  | [] => mret []
  | m :: ms' => a ← m; as_ ← sequence ms'; mret (a :: as_)
  end.

(** The calls [next_seq(db, n)] for the names [ns], in this order. *)
Definition draw_all (ns : list string) : M (list Z) :=
  sequence (map SeedUploadedCard.next_seq ns).

(** Every counter holds an integer that is not negative: the state of
    [counters] as the draws themselves create and advance it. *)
Definition counters_ok (db : database) : Prop :=
  ∀ name, ∃ v, counter_value name db = Some v ∧ 0 ≤ v.

(** Of the results [rs] of the calls [ns], those of the calls for [name]. *)
Fixpoint draws_of (name : string) (ns : list string) (rs : list Z) : list Z :=
  match ns, rs with
  | n :: ns', r :: rs' =>
      if String.eqb n name then r :: draws_of name ns' rs' else draws_of name ns' rs'
  | _, _ => []
  end.

(** Number of calls for [name] among [ns]. *)
Fixpoint calls_for (name : string) (ns : list string) : nat :=
  match ns with
  | [] => 0%nat
  | n :: ns' => if String.eqb n name then S (calls_for name ns') else calls_for name ns'
  end.

(** The card workflow with the attributes of the card left open: [main] is
    the instance with the attributes of its dict. *)
Definition insert_card (attrs : doc) : M unit :=
  id ← SeedUploadedCard.next_seq "uploadedCards";
  d ← insert_one uploadedCards (("id", VInt id) :: attrs);
  print [Text "Inserted: "; Str (VDoc d)].

(** Attributes of a card other than its id: fields that are neither [id] nor
    the [_id] of the store. *)
Definition card_attributes (attrs : doc) : Prop :=
  doc_get "id" attrs = None ∧ doc_get "_id" attrs = None.

(** The attributes of the card of [main], all but the id. *)
Definition main_attrs (now : Z) : doc := tail (SeedUploadedCard.card_doc 0 now).

(** The document a run of the card workflow stores: the [_id] the driver
    adds, then the card. *)
Definition stored_card (id : Z) (attrs : doc) (oid : N) : doc :=
  ("_id", generated_oid oid) :: ("id", VInt id) :: attrs.

(** The dict a run of the card workflow prints: the card, with the [_id] the
    driver adds as its last key. *)
Definition printed_card (id : Z) (attrs : doc) (oid : N) : doc :=
  (("id", VInt id) :: attrs) ++ [("_id", generated_oid oid)].

(** The [id] fields of a list of stored cards. *)
Definition card_ids (ds : list doc) : list (option value) := map (doc_get "id") ds.

(** [$set] of a whole payload: its fields are assigned one after the other. *)
Definition doc_update (payload d : doc) : doc :=
  fold_left (λ acc '(k, v), doc_set k v acc) payload d.

(** The modifiers the update document of the upsert stands for. *)
Definition upsert_modifiers (d : doc) (uid : string) : list modifier :=
  map (λ '(k, v), MSet k v) d ++ [MSetOnInsert "userId" (VStr uid)].

(** Number of documents a filter selects. *)
Definition count_matching (q : doc) (ds : list doc) : nat :=
  length (List.filter (matches q) ds).

(** A hexadecimal digit, and a well-formed reference identifier: 24
    hexadecimal digits. *)
Definition is_hexdigit (c : ascii) : bool :=
  existsb (Ascii.eqb c) (list_ascii_of_string "0123456789abcdefABCDEF").

Definition well_formed (s : string) : bool :=
  Nat.eqb (String.length s) 24 && forallb is_hexdigit (list_ascii_of_string s).

(** An identifier the reference loop keeps: one [ObjectId] accepts. *)
Definition accepted (s : string) : bool :=
  Nat.eqb (String.length s) 24
  && match fromhex s with Some _ => true | None => false end.

(** The ObjectId of an accepted identifier. *)
Definition oid_of (s : string) : value :=
  VOid (default EmptyString (fromhex s)).



(** The diagnostic printed for a rejected identifier. *)
Definition warning (s : string) : event :=
  Stdout [Text ("WARN: skipping invalid ObjectId in --starred: " +:+ s)].

(** Two characters that are the same up to the case of a letter, and two
    strings that differ only in the case of their letters. *)
Definition is_upper (c : ascii) : bool :=
  (65 <=? nat_of_ascii c)%nat && (nat_of_ascii c <=? 90)%nat.



(** A connection string is configured. *)
Definition has_uri (e : SeedMongoUser.environ) : bool :=
  match SeedMongoUser.str_or (SeedMongoUser.MONGODB_URI e) (SeedMongoUser.MONGO_URI e) with
  | Some (String _ _) => true
  | _ => false
  end.

(** A stand-in for the bcrypt library, used only to evaluate runs on concrete
    inputs. *)
Definition stub_bcrypt : Bcrypt :=
  {| hashpw pw salt := salt +:+ pw; gensalt rounds entropy := entropy |}.

(** A document carries no profile-image descriptor: the field is missing or
    null. *)
Definition no_descriptor (d : doc) : Prop :=
  doc_get "pfp" d = None ∨ doc_get "pfp" d = Some VNull.

(** All fields of a document are null. *)
Definition all_null (d : doc) : bool :=
  forallb (λ '(_, v), value_eqb v VNull) d.


Definition main_warnings (args : SeedMongoUser.Namespace) : list event :=
  map warning (List.filter (λ s, negb (accepted s)) (SeedMongoUser.starred args)).


(** * Vocabulary of the further properties *)

(** The collection [counters] after a draw for [name] from a counter that
    holds [v]: the counter document has its [seq] set to [v + 1] in place, or
    a document [{_id: name, seq: 1}] is appended when there was none. *)
Definition counters_after (name : string) (v : Z) (ds : list doc) : list doc :=
  match find_doc [("_id", VStr name)] ds with
  | Some i => alter (doc_set "seq" (VInt (v + 1))) i ds
  | None => ds ++ [[("_id", VStr name); ("seq", VInt 1)]]
  end.

(** The value a draw returns from a counter that holds [v]. *)
Definition drawn (v : Z) : Z := if Z.eqb v (-1) then 1 else v + 1.

(** The documents of a collection have pairwise different [_id]s. *)
Definition distinct_ids (ds : list doc) : Prop :=
  NoDup (map (py_get "_id") ds).

(** A card whose [id] is an integer between 1 and [v]. *)
Definition card_id_within (v : Z) (d : doc) : Prop :=
  ∃ k, doc_get "id" d = Some (VInt k) ∧ 1 ≤ k ≤ v.

(** The cards and their counter agree: the counter [uploadedCards] holds an
    integer [v] that is not negative, every card has an [id] between 1 and
    [v], and no two cards have the same [id]. *)
Definition cards_consistent (db : database) : Prop :=
  ∃ v, counter_value "uploadedCards" db = Some v ∧ 0 ≤ v
       ∧ Forall (card_id_within v) (db_uploadedCards db)
       ∧ NoDup (card_ids (db_uploadedCards db)).

(** The two indexes [ensure_indexes] asks for. *)
Definition uniq_email : index := {| idx_name := "uniq_email"; idx_field := "email" |}.
Definition idx_userId : index := {| idx_name := "idx_userId"; idx_field := "userId" |}.

(** An environment variable that is not set, or set to the empty string. *)
Definition unset (o : option string) : bool :=
  match o with
  | None | Some EmptyString => true
  | Some _ => false
  end.

(** The line [get_client] writes to the standard error stream. *)
Definition no_uri_line : event :=
  Stderr [Text "ERROR: Please set MONGODB_URI env var."].

(** Does a string hold an upper-case ASCII letter? *)
Definition has_upper (s : string) : bool :=
  existsb is_upper (list_ascii_of_string s).

(** The errors index creation can end in: an index of the same name or on
    the same field that is defined otherwise, or duplicates under one of the
    two indexes. *)
Definition index_error (x : exn) : Prop :=
  x = OperationFailure IndexKeySpecsConflict
  ∨ x = OperationFailure IndexOptionsConflict
  ∨ x = DuplicateKeyError "uniq_email"
  ∨ x = DuplicateKeyError "idx_userId".

(** A string of ASCII characters only, on which [lower] is all of
    [str.lower()]. *)
Definition is_ascii (s : string) : bool :=
  forallb (λ c, (nat_of_ascii c <? 128)%nat) (list_ascii_of_string s).

(** * Documents *)

Lemma doc_get_set_eq k v d : doc_get k (doc_set k v d) = Some v.
Proof.
  induction d as [|[k' v'] d IH]; simpl.
  - by rewrite String.eqb_refl.
  - destruct (String.eqb k k') eqn:E; simpl; rewrite ?String.eqb_refl, ?E; done.
Qed.

Lemma doc_get_set_ne k k' v d : k ≠ k' → doc_get k (doc_set k' v d) = doc_get k d.
Proof.
  intros Hne. induction d as [|[k2 v2] d IH]; simpl.
  - by apply String.eqb_neq in Hne as ->.
  - destruct (String.eqb k' k2) eqn:E; simpl.
    + apply String.eqb_eq in E as <-. by apply String.eqb_neq in Hne as ->.
    + by rewrite IH.
Qed.

Lemma py_get_set_eq k v d : py_get k (doc_set k v d) = v.
Proof. unfold py_get. by rewrite doc_get_set_eq. Qed.

Lemma py_get_set_ne k k' v d : k ≠ k' → py_get k (doc_set k' v d) = py_get k d.
Proof. intros. unfold py_get. by rewrite doc_get_set_ne. Qed.

(** * Filters and positions *)

Lemma find_doc_Some q ds i :
  find_doc q ds = Some i → ∃ d, ds !! i = Some d ∧ matches q d = true ∧ find_one q ds = Some d.
Proof.
  revert i. induction ds as [|d ds IH]; intros i; simpl; [done|].
  destruct (matches q d) eqn:E.
  - intros [= <-]. eauto.
  - destruct (find_doc q ds) as [j|]; simpl; [|done].
    intros [= <-]. destruct (IH j eq_refl) as (d' & ? & ? & ?). eauto.
Qed.

Lemma find_doc_None q ds : find_doc q ds = None → find_one q ds = None.
Proof.
  induction ds as [|d ds IH]; simpl; [done|].
  destruct (matches q d); [done|].
  destruct (find_doc q ds); simpl; [done|auto].
Qed.

Lemma find_one_app q ds d :
  find_one q (ds ++ [d]) =
  match find_one q ds with
  | Some d' => Some d'
  | None => if matches q d then Some d else None
  end.
Proof.
  induction ds as [|d' ds IH]; simpl; [done|].
  destruct (matches q d'); [done|apply IH].
Qed.

(** Replacing the document a filter found by one it still selects. *)
Lemma find_one_insert_same q ds i d' :
  find_doc q ds = Some i → matches q d' = true → find_one q (<[i := d']> ds) = Some d'.
Proof.
  revert i. induction ds as [|d ds IH]; intros i; simpl; [done|].
  destruct (matches q d) eqn:E.
  - intros [= <-] Hm. simpl. by rewrite Hm.
  - destruct (find_doc q ds) as [j|]; simpl; [|done].
    intros [= <-] Hm. simpl. rewrite E. by apply IH.
Qed.

(** Replacing a document that a filter does not select by another one that
    it does not select. *)
Lemma find_one_insert_other q ds i d d' :
  ds !! i = Some d → matches q d = false → matches q d' = false →
  find_one q (<[i := d']> ds) = find_one q ds.
Proof.
  revert i. induction ds as [|d0 ds IH]; intros [|i]; simpl; try done.
  - intros [= ->] -> ->. done.
  - intros Hl Hd Hd'. destruct (matches q d0); [done|]. by eapply IH.
Qed.

Lemma matches_id name d :
  matches [("_id", VStr name)] d = value_eqb (py_get "_id" d) (VStr name).
Proof. simpl. by rewrite andb_true_r. Qed.

Lemma value_eqb_str_ne v a b :
  a ≠ b → value_eqb v (VStr a) = true → value_eqb v (VStr b) = false.
Proof.
  intros Hne. destruct v; simpl; try done.
  intros ->%String.eqb_eq. by apply String.eqb_neq.
Qed.

(** * The sequence counter *)

Section Counter.
Import SeedUploadedCard.

(** The call of [next_seq] is one write on [counters] with the single
    modifier [$inc seq 1]. *)
Lemma next_seq_unfold name db :
  next_seq name db =
  match write_one [] (next_oid db) (db_counters db)
          [("_id", VStr name)] [MInc "seq" (VInt 1)] true with
  | Err e => ([], db, Err (command_error e))
  | Ok (ds, rep) =>
      match rep_after rep with
      | None => ([], took_oid (rep_generated rep) (set_docs counters ds db), Err AttributeError)
      | Some res =>
          ([], took_oid (rep_generated rep) (set_docs counters ds db),
           py_int (py_or (py_get "seq" res) (VInt 1)))
      end
  end.
Proof.
  unfold next_seq, find_one_and_update, modify_one, mbind, M_bind. simpl.
  destruct (write_one _ _ _ _ _ _) as [[ds rep]|e]; [|done].
  destruct (rep_after rep); done.
Qed.

(** One draw: the counter goes from [v] to [v + 1], the call returns
    [v + 1], prints nothing, and leaves every other counter and every other
    collection as it was.  The one exception is the stored value [-1], which
    [or 1] keeps the call from returning as 0. *)
Lemma next_seq_step name db v :
  counter_value name db = Some v → v ≠ -1 →
  ∃ ds, next_seq name db = ([], set_docs counters ds db, Ok (v + 1))
        ∧ counter_value name (set_docs counters ds db) = Some (v + 1)
        ∧ ∀ other, other ≠ name →
            counter_value other (set_docs counters ds db) = counter_value other db.
Proof.
  intros Hv Hpos. rewrite next_seq_unfold. unfold write_one, counter_value in *.
  destruct (find_doc [("_id", VStr name)] (db_counters db)) as [i|] eqn:Hf.
  - destruct (find_doc_Some _ _ _ Hf) as (d & Hi & Hm & Hone).
    rewrite Hone in Hv. rewrite Hi.
    assert (∃ d', apply_modifiers false [MInc "seq" (VInt 1)] d = Ok d'
                  ∧ d' = doc_set "seq" (VInt (v + 1)) d) as (d' & Ha & Hd').
    { unfold seq_of in Hv. simpl. destruct (doc_get "seq" d) as [[]|]; simplify_eq; eauto. }
    rewrite Ha. simpl. exists (<[i := d']> (db_counters db)).
    assert (Hm' : matches [("_id", VStr name)] d' = true).
    { rewrite matches_id in *. subst d'. by rewrite py_get_set_ne. }
    split; [|split].
    + subst d'. rewrite py_get_set_eq. unfold py_or. simpl.
      destruct (Z.eqb_spec (v + 1) 0); [lia|done].
    + simpl. rewrite (find_one_insert_same _ _ _ _ Hf Hm').
      subst d'. unfold seq_of. by rewrite doc_get_set_eq.
    + intros other Hne. simpl.
      rewrite (find_one_insert_other _ _ _ d d'); try done.
      * rewrite matches_id in *. by eapply value_eqb_str_ne.
      * rewrite matches_id in *. by eapply value_eqb_str_ne.
  - apply find_doc_None in Hf as Hone. rewrite Hone in Hv. simplify_eq. simpl.
    exists (db_counters db ++ [[("_id", VStr name); ("seq", VInt 1)]]).
    split; [done|]. split.
    + simpl. rewrite find_one_app, Hone. simpl. by rewrite String.eqb_refl.
    + intros other Hne. simpl. rewrite find_one_app. simpl.
      assert (String.eqb name other = false) as ->.
      { apply String.eqb_neq. congruence. }
      by destruct (find_one [("_id", VStr other)] (db_counters db)).
Qed.

(** The exception: from [-1] the counter goes to 0 and the call returns 1. *)
Lemma next_seq_minus_one name db :
  counter_value name db = Some (-1) →
  ∃ db1, next_seq name db = ([], db1, Ok 1) ∧ counter_value name db1 = Some (-1 + 1).
Proof.
  intros Hv. rewrite next_seq_unfold. unfold write_one, counter_value in *.
  destruct (find_doc [("_id", VStr name)] (db_counters db)) as [i|] eqn:Hf.
  - destruct (find_doc_Some _ _ _ Hf) as (d & Hi & Hm & Hone).
    rewrite Hone in Hv. rewrite Hi. unfold seq_of in Hv. simpl.
    destruct (doc_get "seq" d) as [[]|] eqn:Hs; simplify_eq. simpl.
    eexists. split.
    + rewrite py_get_set_eq. reflexivity.
    + simpl. erewrite find_one_insert_same; [|done|].
      * unfold seq_of. by rewrite doc_get_set_eq.
      * rewrite matches_id in *. by rewrite py_get_set_ne.
  - apply find_doc_None in Hf. rewrite Hf in Hv. discriminate.
Qed.

Lemma sequence_cons_ok {A} (m : M A) ms db o1 db1 a o2 db2 rest :
  m db = (o1, db1, Ok a) → sequence ms db1 = (o2, db2, Ok rest) →
  sequence (m :: ms) db = (o1 ++ o2, db2, Ok (a :: rest)).
Proof.
  intros Hm Hms. simpl. unfold mbind, M_bind. rewrite Hm, Hms. simpl.
  by rewrite app_nil_r.
Qed.

Lemma set_docs_twice c ds ds' db : set_docs c ds (set_docs c ds' db) = set_docs c ds db.
Proof. by destruct c. Qed.

(** [n] draws from one counter, one after the other, when no draw meets the
    stored value [-1]. *)
Lemma draw_replicate name n : ∀ db v,
  counter_value name db = Some v → 0 ≤ v ∨ v + Z.of_nat n < 0 →
  ∃ ds, draw_all (replicate n name) db
          = ([], set_docs counters ds db, Ok (seqZ (v + 1) (Z.of_nat n)))
        ∧ counter_value name (set_docs counters ds db) = Some (v + Z.of_nat n)
        ∧ ∀ other, other ≠ name →
            counter_value other (set_docs counters ds db) = counter_value other db.
Proof.
  induction n as [|n IH]; intros db v Hv Hpos.
  - exists (db_counters db). replace (set_docs counters (db_counters db) db) with db
      by by destruct db.
    rewrite Z.add_0_r. done.
  - destruct (next_seq_step name db v Hv ltac:(lia)) as (ds1 & Hrun & Hv1 & Hfr1).
    destruct (IH _ (v + 1) Hv1 ltac:(lia)) as (ds2 & Hruns & Hv2 & Hfr2).
    rewrite set_docs_twice in *. exists ds2. split; [|split].
    + unfold draw_all in *.
      change (map next_seq (replicate (S n) name))
        with (next_seq name :: map next_seq (replicate n name)).
      rewrite (sequence_cons_ok _ _ _ _ _ _ _ _ _ Hrun Hruns).
      rewrite Nat2Z.inj_succ. rewrite (seqZ_cons (v + 1)); [|lia].
      simpl. repeat f_equal; lia.
    + rewrite Hv2. f_equal. lia.
    + intros other Hne. rewrite Hfr2, Hfr1; done.
Qed.

(** Draws from several counters in any order: each counter is advanced by
    the calls for it alone, and these calls receive consecutive values.  A
    draw being a single operation of the store, this is what calls issued by
    several clients amount to, whatever order the store serves them in. *)
Lemma draw_all_interleaved ns : ∀ db,
  counters_ok db →
  ∃ ds rs, draw_all ns db = ([], set_docs counters ds db, Ok rs)
    ∧ ∀ name v, counter_value name db = Some v →
        draws_of name ns rs = seqZ (v + 1) (Z.of_nat (calls_for name ns))
        ∧ counter_value name (set_docs counters ds db)
          = Some (v + Z.of_nat (calls_for name ns)).
Proof.
  induction ns as [|n ns IH]; intros db Hok.
  - exists (db_counters db), []. replace (set_docs counters (db_counters db) db) with db
      by by destruct db.
    split; [done|]. intros name v Hv. simpl. by rewrite Z.add_0_r.
  - destruct (Hok n) as (vn & Hvn & Hpos).
    destruct (next_seq_step n db vn Hvn ltac:(lia)) as (ds1 & Hrun & Hv1 & Hfr1).
    destruct (IH (set_docs counters ds1 db)) as (ds2 & rs & Hruns & Hrs).
    { intros name. destruct (String.eq_dec name n) as [->|Hne].
      - exists (vn + 1). split; [done|lia].
      - rewrite (Hfr1 _ Hne). apply Hok. }
    rewrite set_docs_twice in *. exists ds2, ((vn + 1) :: rs). split.
    + unfold draw_all in *.
      change (map next_seq (n :: ns)) with (next_seq n :: map next_seq ns).
      by rewrite (sequence_cons_ok _ _ _ _ _ _ _ _ _ Hrun Hruns).
    + intros name v Hv. cbn [draws_of calls_for].
      destruct (String.eqb_spec n name) as [->|Hne].
      * assert (v = vn) as -> by congruence.
        destruct (Hrs name (vn + 1) Hv1) as [Hd Hc]. rewrite Hd, Hc.
        rewrite Nat2Z.inj_succ. rewrite (seqZ_cons (vn + 1)); [|lia].
        split; [do 2 f_equal; lia | f_equal; lia].
      * apply Hrs. rewrite Hfr1; [done|congruence].
Qed.

End Counter.

(** * The card insert workflow *)

Section CardInsert.
Import SeedUploadedCard.

Lemma main_insert_card now : main now = insert_card (main_attrs now).
Proof. reflexivity. Qed.

Lemma main_attrs_ok now : card_attributes (main_attrs now).
Proof. done. Qed.

Lemma stored_card_id id attrs oid : doc_get "id" (stored_card id attrs oid) = Some (VInt id).
Proof. done. Qed.

(** A dict that got its [_id] from the driver is stored with the [_id] moved
    to the front. *)
Lemma id_first_appended d v :
  doc_get "_id" d = None → id_first (d ++ [("_id", v)]) = ("_id", v) :: d.
Proof.
  intros Hd. unfold id_first.
  assert (doc_get "_id" (d ++ [("_id", v)]) = Some v) as ->.
  { induction d as [|[k x] d IH]; [done|]. cbn [doc_get app] in *.
    destruct (String.eqb "_id" k); [done|auto]. }
  f_equal. induction d as [|[k x] d IH]; [done|].
  cbn [doc_get app List.filter fst] in *.
  rewrite String.eqb_sym. destruct (String.eqb "_id" k); [done|].
  cbn [negb]. f_equal. auto.
Qed.

(** One run: it draws [v + 1], stores one card with that id and reports it. *)
Lemma insert_card_step attrs db v :
  card_attributes attrs →
  counter_value "uploadedCards" db = Some v → 0 ≤ v →
  ∃ db',
    insert_card attrs db =
      ([Stdout [Text "Inserted: "; Str (VDoc (printed_card (v + 1) attrs (next_oid db)))]],
       db', Ok tt)
    ∧ db_uploadedCards db' =
        db_uploadedCards db ++ [stored_card (v + 1) attrs (next_oid db)]
    ∧ counter_value "uploadedCards" db' = Some (v + 1)
    ∧ db_users db' = db_users db.
Proof.
  intros [_ Hid] Hv Hpos.
  destruct (next_seq_step _ db v Hv ltac:(lia)) as (ds & Hrun & Hv1 & _).
  unfold insert_card, mbind, M_bind. rewrite Hrun.
  unfold insert_one, lacks_id. cbn [doc_get String.eqb Ascii.eqb Bool.eqb].
  rewrite Hid. rewrite id_first_appended by (simpl; exact Hid).
  eexists. split; [reflexivity|done].
Qed.

(** Runs one after the other, each with attributes of its own: the cards
    appended carry consecutive ids, in the order of the runs. *)
Lemma insert_card_runs cards : ∀ db v,
  Forall card_attributes cards →
  counter_value "uploadedCards" db = Some v → 0 ≤ v →
  ∃ out db' new,
    sequence (map insert_card cards) db = (out, db', Ok (map (λ _, tt) cards))
    ∧ db_uploadedCards db' = db_uploadedCards db ++ new
    ∧ card_ids new = map (λ k, Some (VInt k)) (seqZ (v + 1) (Z.of_nat (length cards)))
    ∧ counter_value "uploadedCards" db' = Some (v + Z.of_nat (length cards)).
Proof.
  induction cards as [|attrs cards IH]; intros db v Hok Hv Hpos.
  - exists [], db, []. rewrite app_nil_r, Z.add_0_r. done.
  - inversion_clear Hok as [|? ? Hattrs Hok'].
    destruct (insert_card_step attrs db v Hattrs Hv Hpos) as (db1 & Hrun & Hcards & Hv1 & _).
    destruct (IH db1 (v + 1) Hok' Hv1 ltac:(lia))
      as (out & db' & new & Hruns & Hc & Hids & Hv').
    eexists _, db', (stored_card (v + 1) attrs (next_oid db) :: new).
    split; [|split; [|split]].
    + change (map insert_card (attrs :: cards))
        with (insert_card attrs :: map insert_card cards).
      by rewrite (sequence_cons_ok _ _ _ _ _ _ _ _ _ Hrun Hruns).
    + rewrite Hc, Hcards, <- app_assoc. done.
    + cbn [length]. rewrite Nat2Z.inj_succ, (seqZ_cons (v + 1)); [|lia].
      unfold card_ids in *. cbn [map]. rewrite Hids, stored_card_id.
      do 3 f_equal; lia.
    + rewrite Hv'. cbn [length]. f_equal. lia.
Qed.

End CardInsert.

(** * Claims on the sequence counter and the card workflow *)

Section CardClaims.
Import SeedUploadedCard.

Lemma fresh_counter_value name db : fresh_counter name db → counter_value name db = Some 0.
Proof. unfold fresh_counter, counter_value. by intros ->. Qed.

(** Counters whose values are not negative are what the service maintains
    by itself: the condition holds when [counters] is empty and every draw
    keeps it. *)
Lemma counters_ok_empty db : db_counters db = [] → counters_ok db.
Proof. intros He name. exists 0. unfold counter_value. rewrite He. done. Qed.

Lemma counters_ok_next_seq name db :
  counters_ok db →
  ∃ ds r, next_seq name db = ([], set_docs counters ds db, Ok r)
          ∧ counters_ok (set_docs counters ds db).
Proof.
  intros Hok. destruct (Hok name) as (v & Hv & Hpos).
  destruct (next_seq_step name db v Hv ltac:(lia)) as (ds & Hrun & Hv1 & Hfr).
  exists ds, (v + 1). split; [done|]. intros other.
  destruct (String.eq_dec other name) as [->|Hne].
  - exists (v + 1). split; [done|lia].
  - rewrite (Hfr _ Hne). apply Hok.
Qed.

(** A draw either returns, or is refused by the store because the [seq] of
    the counter is not an integer; it raises nothing else. *)
Lemma next_seq_outcome name db :
  (∃ ds r, next_seq name db = ([], set_docs counters ds db, Ok r))
  ∨ (counter_value name db = None
     ∧ next_seq name db = ([], db, Err (OperationFailure TypeMismatch))).
Proof.
  rewrite next_seq_unfold. unfold write_one, counter_value.
  destruct (find_doc [("_id", VStr name)] (db_counters db)) as [i|] eqn:Hf.
  - destruct (find_doc_Some _ _ _ Hf) as (d & Hi & _ & ->). rewrite Hi.
    unfold seq_of. simpl.
    destruct (doc_get "seq" d) as [v|] eqn:Hs.
    + destruct v; try (right; done). left. simpl. rewrite py_get_set_eq.
      unfold py_or. simpl. destruct (Z.eqb (z + 1) 0); eauto.
    + left. simpl. rewrite py_get_set_eq. eauto.
  - left. simpl. eauto.
Qed.

(** The stored value [-1] is the one from which a draw does not return
    what it stored: the update stores 0, and [res.get("seq") or 1] turns the
    0 into 1.  No draw creates such a counter, see [counters_ok_next_seq]. *)
Remark next_seq_from_minus_one :
  let db := set_docs counters [[("_id", VStr "c"); ("seq", VInt (-1))]] empty_db in
  let db' := set_docs counters [[("_id", VStr "c"); ("seq", VInt 0)]] empty_db in
  counter_value "c" db = Some (-1)
  ∧ next_seq "c" db = ([], db', Ok 1)
  ∧ counter_value "c" db' = Some 0.
Proof. done. Qed.

(** [n] draws from one counter keep the counters as the draws maintain
    them. *)
Lemma counters_ok_draw_replicate name n db :
  counters_ok db →
  ∃ v dbn, counter_value name db = Some v ∧ 0 ≤ v
    ∧ draw_all (replicate n name) db = ([], dbn, Ok (seqZ (v + 1) (Z.of_nat n)))
    ∧ counter_value name dbn = Some (v + Z.of_nat n)
    ∧ counters_ok dbn.
Proof.
  intros Hok. destruct (Hok name) as (v & Hv & Hpos).
  destruct (draw_replicate name n db v Hv ltac:(lia)) as (ds & Hrun & Hvn & Hfr).
  exists v, (set_docs counters ds db). do 4 (split; [done|]).
  intros other. destruct (String.eq_dec other name) as [->|Hne].
  - exists (v + Z.of_nat n). split; [done|lia].
  - rewrite (Hfr _ Hne). apply Hok.
Qed.

(** C3. On the counters as the service keeps them (each holds an integer that
    is not negative: so it is while [counters] is empty, and every draw keeps
    it so), a draw for [name] is one operation of the store that increments
    the counter, from [v] to [v + 1] (from 0 when the counter does not exist
    yet), and returns the value after the increment.  The first draw from a
    fresh counter returns 1.  [n] draws for the same name return the [n]
    integers [v + 1, ..., v + n], each once and without a gap, in this
    order. *)
Theorem C3_next_seq_post_increment (name : string) (db : database) (n : nat) :
  counters_ok db →
  ∃ v, counter_value name db = Some v ∧ 0 ≤ v
    ∧ (fresh_counter name db → v = 0 ∧ ∃ db1, next_seq name db = ([], db1, Ok 1))
    ∧ (∃ db1, next_seq name db = ([], db1, Ok (v + 1))
              ∧ counter_value name db1 = Some (v + 1)
              ∧ counters_ok db1)
    ∧ (∃ dbn rs, draw_all (replicate n name) db = ([], dbn, Ok rs)
         ∧ rs = seqZ (v + 1) (Z.of_nat n)
         ∧ length rs = n
         ∧ NoDup rs
         ∧ (∀ x, x ∈ rs ↔ v + 1 ≤ x ≤ v + Z.of_nat n)
         ∧ counter_value name dbn = Some (v + Z.of_nat n)
         ∧ counters_ok dbn).
Proof.
  intros Hok.
  destruct (counters_ok_draw_replicate name n db Hok) as (v & dbn & Hv & Hpos & Hrun & Hvn & Hokn).
  exists v. do 2 (split; [done|]). split; [|split].
  - intros Hfresh%fresh_counter_value. assert (v = 0) as -> by congruence.
    split; [done|].
    destruct (next_seq_step name db 0 Hv ltac:(lia)) as (ds & Hstep & _). eauto.
  - destruct (counters_ok_draw_replicate name 1 db Hok)
      as (v' & db1 & Hv' & _ & Hrun1 & Hv1 & Hok1).
    assert (v' = v) as -> by congruence.
    exists db1. split; [|done].
    destruct (next_seq_step name db v Hv ltac:(lia)) as (ds & Hstep & _).
    revert Hrun1. unfold draw_all. simpl. unfold mbind, M_bind. rewrite Hstep. simpl.
    by intros [= <-].
  - exists dbn, (seqZ (v + 1) (Z.of_nat n)). do 2 (split; [done|]).
    split; [by rewrite length_seqZ, Nat2Z.id|].
    split; [apply NoDup_seqZ|]. split; [|done].
    intros x. rewrite elem_of_seqZ. lia.
Qed.

Lemma C3_witness :
  counters_ok empty_db
  ∧ fresh_counter "uploadedCards" empty_db
  ∧ ∃ db1 db3,
      next_seq "uploadedCards" empty_db = ([], db1, Ok 1)
      ∧ draw_all (replicate 3 "uploadedCards") empty_db = ([], db3, Ok [1; 2; 3])
      ∧ counter_value "uploadedCards" db3 = Some 3.
Proof.
  assert (counters_ok empty_db) as Hok by (by apply counters_ok_empty).
  split; [exact Hok|]. split; [reflexivity|].
  destruct (C3_next_seq_post_increment "uploadedCards" empty_db 3 Hok)
    as (v & Hv & _ & _ & (db1 & Hrun1 & _) & (db3 & rs & Hrun & -> & _ & _ & _ & Hv3 & _)).
  assert (v = 0) as -> by (by injection Hv).
  exists db1, db3. split; [exact Hrun1|]. split; [exact Hrun|exact Hv3].
Defined.

(** C4. Three runs of the card workflow, one after the other, on a database
    whose counter [uploadedCards] is fresh: the three documents appended to
    [uploadedCards] carry the ids 1, 2, 3 in this order, and the counter
    [uploadedCards] ends at 3.  This holds for the runs of [main], at
    whatever times they happen, and for runs that insert cards with any
    other attributes. *)
Theorem C4_three_card_inserts (db : database) :
  fresh_counter "uploadedCards" db →
  let ids_1_2_3 (runs : list (M unit)) :=
    ∃ out db' d1 d2 d3,
      sequence runs db = (out, db', Ok [tt; tt; tt])
      ∧ db_uploadedCards db' = db_uploadedCards db ++ [d1; d2; d3]
      ∧ card_ids [d1; d2; d3] = [Some (VInt 1); Some (VInt 2); Some (VInt 3)]
      ∧ counter_value "uploadedCards" db' = Some 3 in
  (∀ t1 t2 t3, ids_1_2_3 [main t1; main t2; main t3])
  ∧ (∀ a1 a2 a3,
       card_attributes a1 → card_attributes a2 → card_attributes a3 →
       ids_1_2_3 [insert_card a1; insert_card a2; insert_card a3]).
Proof.
  intros Hfresh%fresh_counter_value ids_1_2_3.
  assert (∀ a1 a2 a3,
            card_attributes a1 → card_attributes a2 → card_attributes a3 →
            ids_1_2_3 [insert_card a1; insert_card a2; insert_card a3]) as Hgen.
  { intros a1 a2 a3 H1 H2 H3.
    assert (Forall card_attributes [a1; a2; a3]) as Hok by auto.
    destruct (insert_card_runs [a1; a2; a3] db 0 Hok Hfresh ltac:(lia))
      as (out & db' & new & Hrun & Hcards & Hids & Hv).
    assert (length new = 3%nat) as Hlen.
    { apply (f_equal length) in Hids. unfold card_ids in Hids.
      by rewrite !length_map in Hids. }
    destruct new as [|d1 [|d2 [|d3 [|]]]]; try discriminate Hlen.
    exists out, db', d1, d2, d3. rewrite Hids. done. }
  split; [|exact Hgen].
  intros t1 t2 t3. rewrite !main_insert_card. apply Hgen; apply main_attrs_ok.
Qed.

Lemma C4_witness :
  let charizard := [("category", VStr "pokemon"); ("card_name", VStr "Charizard")] in
  let blue_eyes := [("category", VStr "yugioh"); ("rarity", VStr "Ultra Rare")] in
  fresh_counter "uploadedCards" empty_db
  ∧ card_attributes charizard ∧ card_attributes blue_eyes ∧ card_attributes []
  ∧ (∃ out db',
       sequence [main 100; main 200; main 300] empty_db = (out, db', Ok [tt; tt; tt])
       ∧ card_ids (db_uploadedCards db') = [Some (VInt 1); Some (VInt 2); Some (VInt 3)])
  ∧ (∃ out db',
       sequence [insert_card charizard; insert_card blue_eyes; insert_card []] empty_db
         = (out, db', Ok [tt; tt; tt])
       ∧ card_ids (db_uploadedCards db') = [Some (VInt 1); Some (VInt 2); Some (VInt 3)]).
Proof.
  intros charizard blue_eyes.
  assert (card_attributes charizard) as Hc by done.
  assert (card_attributes blue_eyes) as Hb by done.
  assert (card_attributes []) as Hn by done.
  split; [reflexivity|]. do 3 (split; [done|]).
  destruct (C4_three_card_inserts empty_db eq_refl) as [Hmain Hgen]. split.
  - destruct (Hmain 100 200 300) as (out & db' & d1 & d2 & d3 & Hrun & Hcards & Hids & _).
    exists out, db'. split; [exact Hrun|]. rewrite Hcards. exact Hids.
  - destruct (Hgen charizard blue_eyes [] Hc Hb Hn)
      as (out & db' & d1 & d2 & d3 & Hrun & Hcards & Hids & _).
    exists out, db'. split; [exact Hrun|]. rewrite Hcards. exact Hids.
Defined.

End CardClaims.

(** * The user upsert workflow *)

Section UserUpsert.
Import SeedMongoUser.
Context `{Bcrypt}.

(** ** The update document *)

Lemma doc_update_app p1 p2 d : doc_update (p1 ++ p2) d = doc_update p2 (doc_update p1 d).
Proof. apply fold_left_app. Qed.

(** After [$set] of a payload, a field holds what the payload assigns to it
    last, and what it held before when the payload does not name it. *)
Lemma doc_get_update k p : ∀ d,
  doc_get k (doc_update p d) =
  match doc_get k (reverse p) with
  | Some v => Some v
  | None => doc_get k d
  end.
Proof.
  induction p as [|[k' v'] p IH] using rev_ind; intros d; [done|].
  rewrite doc_update_app, reverse_snoc. simpl.
  destruct (String.eqb_spec k k') as [->|Hne].
  - apply doc_get_set_eq.
  - rewrite doc_get_set_ne by done. apply IH.
Qed.

Lemma read_upsert_update d uid :
  read_update (upsert_update d uid)
  = Ok (map (λ '(k, v), MSet k v) d ++ [MSetOnInsert "userId" (VStr uid)]).
Proof. reflexivity. Qed.

Lemma apply_set_modifiers ins p : ∀ d rest,
  apply_modifiers ins (map (λ '(k, v), MSet k v) p ++ rest) d
  = apply_modifiers ins rest (doc_update p d).
Proof.
  induction p as [|[k v] p IH]; intros d rest; [done|]. simpl. apply IH.
Qed.

(** The modifiers of the upsert applied to an existing document: the whole
    of [doc] is assigned, [$setOnInsert] does nothing. *)
Lemma apply_upsert_existing d uid old :
  apply_modifiers false
    (map (λ '(k, v), MSet k v) d ++ [MSetOnInsert "userId" (VStr uid)]) old
  = Ok (doc_update d old).
Proof. by rewrite apply_set_modifiers. Qed.

(** ... and to a document being created. *)
Lemma apply_upsert_new d uid seed :
  apply_modifiers true
    (map (λ '(k, v), MSet k v) d ++ [MSetOnInsert "userId" (VStr uid)]) seed
  = Ok (doc_set "userId" (VStr uid) (doc_update d seed)).
Proof. by rewrite apply_set_modifiers. Qed.

(** The update document of the upsert names [userId] twice, and the server
    refuses it. *)
Lemma parse_upsert_update args uid pw st now :
  parse_update (upsert_update (user_doc args uid pw st now) uid)
  = Err (WriteError ConflictingUpdateOperators "userId").
Proof. reflexivity. Qed.

Lemma update_one_upsert_rejected c q args uid pw st now upsert db :
  update_one c q (upsert_update (user_doc args uid pw st now) uid) upsert db
  = ([], db, Err (WriteError ConflictingUpdateOperators "userId")).
Proof. reflexivity. Qed.

(** ** The reference loop *)

Lemma is_hexdigit_hex_digit c :
  is_hexdigit c = match hex_digit c with Some _ => true | None => false end.
Proof. destruct c as [[] [] [] [] [] [] [] []]; reflexivity. Qed.

Lemma is_hexdigit_not_space c : is_hexdigit c = true → is_space c = false.
Proof. destruct c as [[] [] [] [] [] [] [] []]; vm_compute; congruence. Qed.

(** Strings are read two characters at a time. *)
Lemma string_pair_ind (P : string → Prop) :
  P EmptyString → (∀ c, P (String c EmptyString)) →
  (∀ c c' s, P s → P (String c (String c' s))) → ∀ s, P s.
Proof.
  intros H0 H1 H2 s. cut (P s ∧ ∀ c, P (String c s)); [by intros []|].
  induction s as [|c s [IH1 IH2]]; split; auto.
Qed.

(** [bytes.fromhex] reads a string of hexadecimal digits of even length. *)
Lemma fromhex_digits s :
  Nat.even (String.length s) = true →
  forallb is_hexdigit (list_ascii_of_string s) = true →
  is_Some (fromhex s).
Proof.
  induction s as [|c|c c' s IH] using string_pair_ind; [by eexists|done|].
  cbn [String.length list_ascii_of_string forallb fromhex].
  intros Hlen [Hc [Hc' Hs]%andb_prop]%andb_prop.
  rewrite (is_hexdigit_not_space _ Hc).
  rewrite is_hexdigit_hex_digit in Hc, Hc'.
  destruct (hex_digit c); [|done]. destruct (hex_digit c'); [|done].
  destruct (IH Hlen Hs) as [b ->]. by eexists.
Qed.


(** [ObjectId] accepts exactly the strings of length 24 that [bytes.fromhex]
    reads. *)
Lemma ObjectId_accepted s :
  ObjectId s = if accepted s then Ok (oid_of s) else Err InvalidId.
Proof.
  unfold ObjectId, accepted, oid_of.
  destruct (Nat.eqb (String.length s) 24); [|done]. simpl.
  by destruct (fromhex s).
Qed.

(** Every well-formed identifier is accepted. *)
Lemma well_formed_accepted s : well_formed s = true → accepted s = true.
Proof.
  unfold well_formed, accepted. intros [Hlen Hs]%andb_prop. rewrite Hlen. simpl.
  apply Nat.eqb_eq in Hlen.
  destruct (fromhex_digits s) as [b ->]; [by rewrite Hlen|done|done].
Qed.


(** The loop keeps the ObjectIds of the strings that [ObjectId] accepts, in
    order, after what was collected before; it prints one warning for each of
    the others, in order; it never fails and does not touch the database. *)
Lemma starred_loop_run ss : ∀ acc db,
  starred_loop ss acc db
  = (map warning (List.filter (λ s, negb (accepted s)) ss), db,
     Ok (acc ++ map oid_of (List.filter accepted ss))).
Proof.
  induction ss as [|s ss IH]; intros acc db; simpl.
  - by rewrite app_nil_r.
  - rewrite ObjectId_accepted. destruct (accepted s); simpl.
    + rewrite IH, <- app_assoc. done.
    + unfold mbind, M_bind. simpl. rewrite IH. done.
Qed.

(** ** Index creation *)

(** Index creation prints nothing and touches no document. *)
Lemma create_index_frame field name db :
  ∃ db' r, create_index field name db = ([], db', r)
    ∧ db_users db' = db_users db ∧ db_counters db' = db_counters db
    ∧ db_uploadedCards db' = db_uploadedCards db ∧ next_oid db' = next_oid db.
Proof.
  unfold create_index.
  repeat match goal with |- context [if ?b then _ else _] => destruct b end;
    eexists _, _; split; try reflexivity; done.
Qed.

Lemma ensure_indexes_frame db :
  ∃ db' r, ensure_indexes db = ([], db', r)
    ∧ db_users db' = db_users db ∧ db_counters db' = db_counters db
    ∧ db_uploadedCards db' = db_uploadedCards db ∧ next_oid db' = next_oid db.
Proof.
  unfold ensure_indexes, mbind, M_bind.
  destruct (create_index_frame "email" "uniq_email" db)
    as (db1 & r1 & -> & Hu1 & Hc1 & Hk1 & Ho1).
  destruct r1 as [n1|e1]; [|by eexists _, _].
  destruct (create_index_frame "userId" "idx_userId" db1)
    as (db2 & r2 & -> & Hu2 & Hc2 & Hk2 & Ho2).
  destruct r2 as [n2|e2]; eexists _, _; simpl;
    (split; [reflexivity|]); repeat split; congruence.
Qed.

(** ** Runs of [main] *)

Lemma get_client_ok e db :
  has_uri e = true → ∃ uri, get_client e db = ([], db, Ok uri).
Proof.
  unfold has_uri, get_client.
  destruct (str_or _ _) as [[|c s]|]; try done. eauto.
Qed.

(** The one write of a run: after the indexes and the reference loop, [main]
    calls [update_one] on [users] with the lower-case e-mail as filter and,
    as update, [$set] of the assembled document and [$setOnInsert] of the
    resolved identifier; the digest in the document is [hashpw] of the
    password with a salt of cost 12. *)
Lemma main_upserts args e db db1 :
  has_uri e = true → ensure_indexes db = ([], db1, Ok tt) →
  let uid := resolve_user_id args e in
  let d := user_doc args uid (hashpw (password args) (gensalt 12 (urandom e)))
             (map oid_of (List.filter accepted (starred args))) (now e) in
  let key := VStr (lower (email args)) in
  let warnings := map warning (List.filter (λ s, negb (accepted s)) (starred args)) in
  main args e db =
  match update_one users (upsert_filter key) (upsert_update d uid) true db1 with
  | (o, db2, Err x) => (warnings ++ o, db2, Err x)
  | (o, db2, Ok id) =>
      (warnings ++ o ++
         [ Stdout (if truthy (default VNull id)
                   then [Text "Inserted user with _id="; Str (default VNull id);
                         Text " email="; Str key; Text (" userId=" +:+ uid)]
                   else [Text "Updated user email="; Str key; Text (" userId=" +:+ uid)]);
           Stdout [Text "Done."] ],
       db2, Ok tt)
  end.
Proof.
  intros Huri Hix uid d key warnings.
  destruct (get_client_ok e db Huri) as (uri & Hc).
  unfold main, mbind at 1, M_bind at 1. rewrite Hc.
  unfold mbind at 1, M_bind at 1. rewrite Hix.
  unfold mbind at 1, M_bind at 1. rewrite starred_loop_run.
  rewrite app_nil_l. fold uid. fold d. unfold mbind, M_bind, lift.
  change (py_item "email" d) with (Ok key). cbv beta iota.
  destruct (update_one users (upsert_filter key) (upsert_update d uid) true db1)
    as [[o db2] [id|x]]; [|done].
  unfold print, emit.
  destruct (truthy (default VNull id)); simpl; by rewrite ?app_nil_r.
Qed.

(** A run that gets as far as the upsert: it has printed the warnings of the
    reference loop, created the indexes, and ends in the server's refusal of
    the update document. *)
Lemma main_run args e db db1 :
  has_uri e = true → ensure_indexes db = ([], db1, Ok tt) →
  main args e db
  = (main_warnings args, db1, Err (WriteError ConflictingUpdateOperators "userId")).
Proof.
  intros Huri Hix. rewrite (main_upserts _ _ _ _ Huri Hix). cbv zeta.
  rewrite update_one_upsert_rejected. by rewrite app_nil_r.
Qed.

(** No run of [main] ends well, and none changes the documents of [users]. *)
Lemma main_never_ok args e db :
  ∃ out db' x, main args e db = (out, db', Err x) ∧ db_users db' = db_users db.
Proof.
  unfold main, mbind at 1, M_bind at 1.
  unfold get_client.
  destruct (str_or _ _) as [[|c s]|]; try by eexists _, _, _.
  unfold mret at 1, M_ret at 1.
  unfold mbind at 1, M_bind at 1.
  destruct (ensure_indexes_frame db) as (db1 & r & -> & Hu & _).
  destruct r as [[]|x]; [|by eexists _, _, _].
  unfold mbind at 1, M_bind at 1. rewrite starred_loop_run.
  eexists _, _, _. split; [reflexivity|done].
Qed.

End UserUpsert.

(** ** The write phase of the upsert *)

Section UpsertWrite.
Import SeedMongoUser.

(** Were the update document accepted, this is what the write would do to a
    collection that holds a document with the e-mail: that document, and no
    other, is replaced by itself with every field of [doc] assigned. *)
Lemma write_one_existing ixs fresh ds q d uid i ds' rep :
  find_doc q ds = Some i →
  write_one ixs fresh ds q (upsert_modifiers d uid) true = Ok (ds', rep) →
  ∃ old, ds !! i = Some old
    ∧ ds' = <[i := doc_update d old]> ds
    ∧ ds' !! i = Some (doc_update d old)
    ∧ rep_before rep = Some old
    ∧ rep_after rep = Some (doc_update d old)
    ∧ rep_upserted_id rep = None.
Proof.
  intros Hf. unfold write_one, upsert_modifiers. rewrite Hf.
  destruct (find_doc_Some _ _ _ Hf) as (old & Hi & _). rewrite Hi.
  rewrite apply_upsert_existing. simpl.
  destruct (check_unique _ _ _); [|done]. intros [= <- <-].
  exists old. repeat split; try done.
  apply list_lookup_insert_eq. by eapply lookup_lt_Some.
Qed.

(** ... and to a collection that holds none: one document is appended. *)
Lemma write_one_new ixs fresh ds q d uid ds' rep :
  find_doc q ds = None →
  write_one ixs fresh ds q (upsert_modifiers d uid) true = Ok (ds', rep) →
  let new := with_id fresh (doc_set "userId" (VStr uid) (doc_update d q)) in
  ds' = ds ++ [new] ∧ rep_before rep = None ∧ rep_after rep = Some new.
Proof.
  intros Hf. unfold write_one, upsert_modifiers. rewrite Hf.
  rewrite apply_upsert_new. simpl.
  destruct (check_unique _ _ _); [|done]. by intros [= <- <-].
Qed.

End UpsertWrite.

(** ** Letter case *)

Lemma lower_ascii_code c :
  nat_of_ascii (lower_ascii c)
  = if is_upper c then (nat_of_ascii c + 32)%nat else nat_of_ascii c.
Proof.
  unfold lower_ascii, is_upper.
  destruct ((65 <=? nat_of_ascii c)%nat && (nat_of_ascii c <=? 90)%nat) eqn:E; [|done].
  apply nat_ascii_embedding.
  apply andb_prop in E as [_ E%Nat.leb_le]. lia.
Qed.

Lemma ascii_code_inj a b : nat_of_ascii a = nat_of_ascii b → a = b.
Proof.
  intros E. rewrite <- (ascii_nat_embedding a), <- (ascii_nat_embedding b). by rewrite E.
Qed.



(** [lower] leaves no upper-case letter, and changes nothing in a string that
    has none. *)
Lemma lower_idempotent s : lower (lower s) = lower s.
Proof.
  induction s as [|c s IH]; simpl; [done|]. rewrite IH. f_equal.
  apply ascii_code_inj. rewrite !lower_ascii_code.
  unfold is_upper. rewrite lower_ascii_code. unfold is_upper.
  repeat match goal with
  | |- context [(?x <=? ?y)%nat] => destruct (Nat.leb_spec x y)
  end; cbn [andb] in *; lia.
Qed.

(** What [lower] returns holds no upper-case letter. *)
Lemma lower_ascii_not_upper c : is_upper (lower_ascii c) = false.
Proof.
  unfold is_upper at 1. rewrite lower_ascii_code.
  destruct (is_upper c) eqn:E; [|exact E].
  unfold is_upper in E. apply andb_prop in E as [E1%Nat.leb_le E2%Nat.leb_le].
  apply andb_false_iff. right. apply Nat.leb_gt. lia.
Qed.

Lemma lower_ascii_fixed c : is_upper c = false → lower_ascii c = c.
Proof. unfold lower_ascii, is_upper. by intros ->. Qed.



(** ** ObjectIds and identifiers *)



Lemma well_formed_length s : well_formed s = true → String.length s = 24%nat.
Proof. unfold well_formed. intros [E _]%andb_prop. by apply Nat.eqb_eq. Qed.




(** * Claims on the user upsert workflow *)

Section UserClaims.
Import SeedMongoUser.

(** C2. For every input, the update document of the upsert names [userId]
    under [$set] (through the whole of [doc]) and under [$setOnInsert]; the
    server refuses such a document as conflicting, whatever the filter, the
    collection and the database, so no run of [main] ends well and none
    writes a user. *)
Theorem C2_upsert_names_userId_twice `{Bcrypt} (args : Namespace) (e : environ)
    (db : database) :
  let uid := resolve_user_id args e in
  (∀ pw st now,
     let d := user_doc args uid pw st now in
     let u := upsert_update d uid in
     doc_get "$set" u = Some (VDoc d)
     ∧ doc_get "userId" d = Some (VStr uid)
     ∧ doc_get "$setOnInsert" u = Some (VDoc [("userId", VStr uid)])
     ∧ read_update u = Ok (upsert_modifiers d uid)
     ∧ check_conflicts (upsert_modifiers d uid)
       = Err (WriteError ConflictingUpdateOperators "userId")
     ∧ ∀ c q upsert db0,
         update_one c q u upsert db0
         = ([], db0, Err (WriteError ConflictingUpdateOperators "userId")))
  ∧ ∃ out db' x, main args e db = (out, db', Err x) ∧ db_users db' = db_users db.
Proof.
  split; [|apply main_never_ok].
  intros pw st now. repeat split.
Qed.

(** C1. Two runs with the same input on an empty database: each run ends in
    the server's refusal of the update document, and afterwards [users]
    holds no document at all, where the claim expects exactly one. *)
Theorem C1_two_runs_store_no_record `{Bcrypt} (args : Namespace) (e1 e2 : environ) :
  has_uri e1 = true → has_uri e2 = true →
  ∃ out1 db1 out2 db2,
    main args e1 empty_db
      = (out1, db1, Err (WriteError ConflictingUpdateOperators "userId"))
    ∧ main args e2 db1
      = (out2, db2, Err (WriteError ConflictingUpdateOperators "userId"))
    ∧ db_users db2 = []
    ∧ count_matching (upsert_filter (VStr (lower (email args)))) (db_users db2) = 0%nat.
Proof.
  intros H1 H2.
  set (db1 := set_users_indexes
                [ {| idx_name := "uniq_email"; idx_field := "email" |};
                  {| idx_name := "idx_userId"; idx_field := "userId" |} ] empty_db).
  eexists _, db1, _, db1. split; [|split; [|split]].
  - by apply main_run.
  - by apply main_run.
  - done.
  - done.
Qed.

Lemma C1_witness :
  let e1 := {| MONGODB_URI := Some "mongodb://localhost:27017"; MONGO_URI := None;
               now := 1000; uuid4_hex := "0123456789abcdef0123456789abcdef";
               urandom := "0000000000000000" |} in
  let e2 := {| MONGODB_URI := Some "mongodb://localhost:27017"; MONGO_URI := None;
               now := 2000; uuid4_hex := "fedcba9876543210fedcba9876543210";
               urandom := "1111111111111111" |} in
  has_uri e1 = true ∧ has_uri e2 = true
  ∧ ∃ out1 db1 out2 db2,
      @main stub_bcrypt (default_args "2025/01/01") e1 empty_db
        = (out1, db1, Err (WriteError ConflictingUpdateOperators "userId"))
      ∧ @main stub_bcrypt (default_args "2025/01/01") e2 db1
        = (out2, db2, Err (WriteError ConflictingUpdateOperators "userId"))
      ∧ db_users db2 = [].
Proof.
  intros e1 e2. split; [reflexivity|]. split; [reflexivity|].
  destruct (@C1_two_runs_store_no_record stub_bcrypt (default_args "2025/01/01") e1 e2
              eq_refl eq_refl) as (out1 & db1 & out2 & db2 & R1 & R2 & Hu & _).
  exists out1, db1, out2, db2. auto.
Defined.

(** What the write would do to [userId] and [createdAt], were the update
    document accepted: a document that exists is given the identifier and
    the clock of the current run in both fields. *)
Lemma upsert_write_overwrites ixs fresh ds args uid pw st now i ds' rep :
  let d := user_doc args uid pw st now in
  find_doc (upsert_filter (VStr (lower (email args)))) ds = Some i →
  write_one ixs fresh ds (upsert_filter (VStr (lower (email args))))
    (upsert_modifiers d uid) true = Ok (ds', rep) →
  ∃ d', ds' !! i = Some d'
    ∧ doc_get "userId" d' = Some (VStr uid)
    ∧ doc_get "createdAt" d' = Some (VDate now)
    ∧ doc_get "updatedAt" d' = Some (VDate now).
Proof.
  intros d Hf Hw.
  destruct (write_one_existing _ _ _ _ _ _ _ _ _ Hf Hw) as (old & _ & _ & Hi & _).
  exists (doc_update d old). split; [done|].
  rewrite !doc_get_update. done.
Qed.

(** C10. The assembled document fixes [suggested_num] to 0 and [messages] to
    the empty list; together with [blocked_users] and [premade_messages] of
    the current run they are part of the [$set] payload; so the modifiers of
    the upsert, applied to the document of an existing record, leave these
    four fields at the defaults and at the current run's values, whatever
    the record held. *)
Theorem C10_update_resets_fields (args : Namespace) (uid pw : string)
    (st : list value) (now : Z) :
  let d := user_doc args uid pw st now in
  let u := upsert_update d uid in
  let now_held (d' : doc) :=
    doc_get "suggested_num" d' = Some (VInt 0)
    ∧ doc_get "messages" d' = Some (VList [])
    ∧ doc_get "blocked_users" d' = Some (VList (map VStr (blocked args)))
    ∧ doc_get "premade_messages" d' = Some (VList (map VStr (premade args))) in
  now_held d
  ∧ doc_get "$set" u = Some (VDoc d)
  ∧ read_update u = Ok (upsert_modifiers d uid)
  ∧ (∀ old, ∃ d', apply_modifiers false (upsert_modifiers d uid) old = Ok d'
                  ∧ now_held d')
  ∧ (∀ ixs fresh ds i ds' rep,
       find_doc (upsert_filter (VStr (lower (email args)))) ds = Some i →
       write_one ixs fresh ds (upsert_filter (VStr (lower (email args))))
         (upsert_modifiers d uid) true = Ok (ds', rep) →
       ∃ d', ds' !! i = Some d' ∧ now_held d').
Proof.
  intros d u now_held.
  assert (∀ old, now_held (doc_update d old)) as Hheld.
  { intros old. unfold now_held. rewrite !doc_get_update. done. }
  split; [done|]. split; [done|]. split; [done|]. split.
  - intros old. exists (doc_update d old). split; [|apply Hheld].
    apply apply_upsert_existing.
  - intros ixs fresh ds i ds' rep Hf Hw.
    destruct (write_one_existing _ _ _ _ _ _ _ _ _ Hf Hw) as (old & _ & _ & Hi & _).
    eauto.
Qed.

End UserClaims.

(** * Further claims on the user upsert workflow *)

Section UserClaims2.
Import SeedMongoUser.

Lemma find_doc_app_new q ds d :
  find_doc q ds = None → matches q d = true → find_doc q (ds ++ [d]) = Some (length ds).
Proof.
  intros Hn Hm. induction ds as [|d0 ds IH]; simpl in *.
  - by rewrite Hm.
  - destruct (matches q d0); [done|].
    destruct (find_doc q ds); [done|]. by rewrite IH.
Qed.

Lemma count_matching_none q ds : find_doc q ds = None → count_matching q ds = 0%nat.
Proof.
  unfold count_matching. induction ds as [|d ds IH]; simpl; [done|].
  destruct (matches q d); [done|].
  destruct (find_doc q ds); [done|]. auto.
Qed.

Lemma count_matching_app q ds ds' :
  count_matching q (ds ++ ds') = (count_matching q ds + count_matching q ds')%nat.
Proof. unfold count_matching. by rewrite List.filter_app, length_app. Qed.

Lemma doc_get_with_id k fresh d : k ≠ "_id" → doc_get k (with_id fresh d) = doc_get k d.
Proof.
  intros Hne. unfold with_id. destruct (doc_get "_id" d); [done|].
  simpl. by apply String.eqb_neq in Hne as ->.
Qed.










(** C8, as stated, fails: with no profile-image URL the assembled document
    still carries a descriptor, whose two fields are null. *)
Lemma C8_counterexample :
  let args := default_args "2025/01/01" in
  let d := user_doc args "usr_0123456789ab" "digest" [] 1000 in
  pfp_url args = None
  ∧ ¬ no_descriptor d
  ∧ ∃ f, doc_get "pfp" d = Some (VDoc f) ∧ all_null f = true.
Proof.
  intros args d. split; [reflexivity|]. split.
  - intros [E|E]; discriminate E.
  - eexists. split; reflexivity.
Qed.

(** C8, amended. The assembled document always carries a descriptor with
    the two fields [url] and [storage]: with no URL both are null; with a
    URL that is not empty, [url] is the URL and [storage] is ["url"]; with
    the empty string as URL, [url] is the empty string and [storage] is
    null. *)
Theorem C8_descriptor_always_present (args : Namespace) (uid pw : string)
    (st : list value) (now : Z) :
  doc_get "pfp" (user_doc args uid pw st now)
  = Some (VDoc
      match pfp_url args with
      | None => [("url", VNull); ("storage", VNull)]
      | Some EmptyString => [("url", VStr ""); ("storage", VNull)]
      | Some url => [("url", VStr url); ("storage", VStr "url")]
      end).
Proof. unfold user_doc. simpl. destruct (pfp_url args) as [[|c s]|]; reflexivity. Qed.

Lemma py_prefix_length n : ∀ s,
  (n ≤ String.length s → String.length (py_prefix n s) = n)%nat.
Proof.
  unfold py_prefix. induction n as [|n IH]; intros [|c s]; simpl; try done; try lia.
  intros Hl. f_equal. apply IH. lia.
Qed.

(** C9, as stated, fails: a caller who supplies the empty string as
    identifier gets a synthesized one. *)
Lemma C9_counterexample :
  let args := {| email := "a@x.com"; password := "pw"; username := "u";
                 phone_num := ""; address := ""; pfp_url := None;
                 notification := true; starred := []; blocked := [];
                 premade := []; signup_date := "2025/01/01";
                 user_id := Some "" |} in
  let e := {| MONGODB_URI := None; MONGO_URI := None; now := 0;
              uuid4_hex := "0123456789abcdef0123456789abcdef"; urandom := "" |} in
  user_id args = Some ""
  ∧ resolve_user_id args e = "usr_0123456789ab"
  ∧ resolve_user_id args e ≠ "".
Proof. done. Qed.

(** C9, amended. The resolved identifier is the caller's when the caller
    supplied one that is not empty; otherwise it is ["usr_"] followed by the
    first twelve characters of [uuid.uuid4().hex]. *)
Theorem C9_resolved_identifier (args : Namespace) (e : environ) :
  match user_id args with
  | Some (String c s) => resolve_user_id args e = String c s
  | Some EmptyString | None =>
      resolve_user_id args e = "usr_" +:+ py_prefix 12 (uuid4_hex e)
      ∧ String.prefix "usr_" (resolve_user_id args e) = true
      ∧ (12 ≤ String.length (uuid4_hex e) →
         String.length (resolve_user_id args e) = 16)%nat
  end.
Proof.
  unfold resolve_user_id.
  destruct (user_id args) as [[|c s]|]; cbn [str_or]; [|done|].
  all: split; [done|]; split;
         [simpl; by destruct (py_prefix 12 (uuid4_hex e))|]; intros Hlen.
  all: change ("usr_" +:+ py_prefix 12 (uuid4_hex e))
         with (String "u" (String "s" (String "r" (String "_" (py_prefix 12 (uuid4_hex e)))))).
  all: cbn [String.length]; by rewrite py_prefix_length.
Qed.

Lemma C9_witness :
  let args := default_args "2025/01/01" in
  let e := {| MONGODB_URI := None; MONGO_URI := None; now := 0;
              uuid4_hex := "0123456789abcdef0123456789abcdef"; urandom := "" |} in
  (12 ≤ String.length (uuid4_hex e))%nat
  ∧ resolve_user_id args e = "usr_0123456789ab"
  ∧ String.length (resolve_user_id args e) = 16%nat.
Proof.
  intros args e. split; [vm_compute; lia|]. split; [reflexivity|].
  pose proof (C9_resolved_identifier args e) as (_ & _ & Hlen).
  apply Hlen. vm_compute. lia.
Defined.

(** A record that holds other values in the four fields, updated by the
    modifiers of a run with the defaults. *)
Lemma C10_witness :
  let args := default_args "2025/01/01" in
  let d := user_doc args "usr_new" "digest" [] 2000 in
  let q := upsert_filter (VStr "test@cardtraders.app") in
  let old := [ ("_id", generated_oid 7); ("email", VStr "test@cardtraders.app");
               ("userId", VStr "usr_old"); ("suggested_num", VInt 5);
               ("messages", VList [VStr "hello"]);
               ("blocked_users", VList [VStr "usr_x"]);
               ("premade_messages", VList [VStr "old"]);
               ("createdAt", VDate 1000) ] in
  find_doc q [old] = Some 0%nat
  ∧ ∃ ds' rep d',
      write_one [] 8 [old] q (upsert_modifiers d "usr_new") true = Ok (ds', rep)
      ∧ ds' !! 0%nat = Some d'
      ∧ doc_get "suggested_num" d' = Some (VInt 0)
      ∧ doc_get "messages" d' = Some (VList [])
      ∧ doc_get "blocked_users" d' = Some (VList [])
      ∧ doc_get "createdAt" d' = Some (VDate 2000).
Proof.
  intros args d q old. split; [reflexivity|].
  destruct (C10_update_resets_fields args "usr_new" "digest" [] 2000)
    as (_ & _ & _ & _ & Hw).
  destruct (Hw [] 8%N [old] 0%nat _ _ eq_refl eq_refl) as (d' & Hd' & H1 & H2 & H3 & _).
  eexists _, _, d'. split; [reflexivity|]. split; [exact Hd'|].
  split; [exact H1|]. split; [exact H2|]. split; [exact H3|].
  simpl in Hd'. by injection Hd' as <-.
Defined.

End UserClaims2.

(** * Further properties of seed_uploaded_card.py *)

Section CardExtras.
Import SeedUploadedCard.

Lemma value_eqb_str v s : value_eqb v (VStr s) = true ↔ v = VStr s.
Proof.
  destruct v; simpl; try (split; [discriminate|discriminate]).
  rewrite String.eqb_eq. split; [by intros ->|by intros [= ->]].
Qed.

Lemma alter_as_insert (f : doc → doc) (i : nat) (ds : list doc) d :
  ds !! i = Some d → alter f i ds = <[i := f d]> ds.
Proof.
  revert i. induction ds as [|d0 ds IH]; intros [|i]; simpl; try done.
  - by intros [= ->].
  - intros Hl. f_equal. by apply IH.
Qed.

(** What a draw does, in full: the database it leaves and the value it
    returns, for every counter that holds an integer. *)
Lemma next_seq_exact name db v :
  counter_value name db = Some v →
  next_seq name db
  = ([], set_docs counters (counters_after name v (db_counters db)) db, Ok (drawn v)).
Proof.
  intros Hv. rewrite next_seq_unfold. unfold write_one, counters_after, counter_value in *.
  destruct (find_doc [("_id", VStr name)] (db_counters db)) as [i|] eqn:Hf.
  - destruct (find_doc_Some _ _ _ Hf) as (d & Hi & Hm & Hone).
    rewrite Hone in Hv. rewrite Hi, (alter_as_insert _ _ _ _ Hi).
    assert (apply_modifiers false [MInc "seq" (VInt 1)] d
            = Ok (doc_set "seq" (VInt (v + 1)) d)) as ->.
    { unfold seq_of in Hv. simpl. destruct (doc_get "seq" d) as [[]|]; simplify_eq; done. }
    simpl. rewrite py_get_set_eq. unfold py_or, drawn. simpl.
    destruct (Z.eqb_spec v (-1)) as [->|Hne]; [done|].
    destruct (Z.eqb_spec (v + 1) 0); [lia|done].
  - apply find_doc_None in Hf as Hone. rewrite Hone in Hv. by simplify_eq.
Qed.

(** ... and for a counter whose [seq] is not an integer. *)
Lemma next_seq_refused name db :
  counter_value name db = None →
  next_seq name db = ([], db, Err (OperationFailure TypeMismatch)).
Proof.
  intros Hv. rewrite next_seq_unfold. unfold write_one, counter_value in *.
  destruct (find_doc [("_id", VStr name)] (db_counters db)) as [i|] eqn:Hf.
  - destruct (find_doc_Some _ _ _ Hf) as (d & Hi & Hm & Hone).
    rewrite Hone in Hv. rewrite Hi. unfold seq_of in Hv. simpl.
    by destruct (doc_get "seq" d) as [[]|].
  - apply find_doc_None in Hf as Hone. by rewrite Hone in Hv.
Qed.

(** X1. On a counter whose [seq] is an integer, or is missing, or that does
    not exist yet, a draw returns, and what it returns is never 0: it is the
    value after the increment, except that [res.get("seq") or 1] replaces
    the one 0 the increment of an integer can give, that of the stored
    value [-1], by 1. *)
Theorem X1_next_seq_never_returns_zero (name : string) (db : database) (v : Z) :
  counter_value name db = Some v →
  ∃ db' r,
    next_seq name db = ([], db', Ok r)
    ∧ r ≠ 0
    ∧ (v ≠ -1 → r = v + 1)
    ∧ (v = -1 → r = 1).
Proof.
  intros Hv. eexists _, _. split; [apply (next_seq_exact _ _ _ Hv)|].
  unfold drawn. destruct (Z.eqb_spec v (-1)); repeat split; lia.
Qed.

Lemma X1_witness :
  let db := set_docs counters [[("_id", VStr "c"); ("seq", VInt (-1))]] empty_db in
  counter_value "c" db = Some (-1)
  ∧ ∃ db', next_seq "c" db = ([], db', Ok 1).
Proof.
  intros db. split; [reflexivity|].
  destruct (X1_next_seq_never_returns_zero "c" db (-1) eq_refl)
    as (db' & r & Hrun & _ & _ & Hr).
  exists db'. rewrite Hrun. by rewrite (Hr eq_refl).
Defined.

(** X2. What a draw does with a counter document whose [seq] is not a
    number.  When [seq] is null, a boolean, a string, a date, an ObjectId, a
    list or a document, the store refuses to increment it: the call raises
    [OperationFailure] with the code of a type mismatch, prints nothing and
    leaves the database as it was.  When [seq] is an integer or is missing,
    or when the counter does not exist, the call returns. *)
Theorem X2_next_seq_refuses_non_numeric_seq (name : string) (db : database) :
  (∀ d x,
     find_one [("_id", VStr name)] (db_counters db) = Some d →
     doc_get "seq" d = Some x → (∀ z, x ≠ VInt z) →
     next_seq name db = ([], db, Err (OperationFailure TypeMismatch)))
  ∧ (∀ v, counter_value name db = Some v →
          ∃ db' r, next_seq name db = ([], db', Ok r)).
Proof.
  split.
  - intros d x Hd Hx Hn. apply next_seq_refused.
    unfold counter_value, seq_of. rewrite Hd, Hx.
    destruct x; try done. by destruct (Hn z).
  - intros v Hv. eexists _, _. apply (next_seq_exact _ _ _ Hv).
Qed.

Lemma X2_witness :
  let d := [("_id", VStr "c"); ("seq", VStr "7")] in
  let db := set_docs counters [d] empty_db in
  find_one [("_id", VStr "c")] (db_counters db) = Some d
  ∧ doc_get "seq" d = Some (VStr "7")
  ∧ next_seq "c" db = ([], db, Err (OperationFailure TypeMismatch)).
Proof.
  intros d db. split; [reflexivity|]. split; [reflexivity|].
  destruct (X2_next_seq_refuses_non_numeric_seq "c" db) as [Hfail _].
  apply (Hfail d (VStr "7")); [reflexivity|reflexivity|discriminate].
Defined.

Lemma counters_after_length name v ds :
  length (counters_after name v ds)
  = (length ds + match find_one [("_id", VStr name)] ds with
                 | Some _ => 0 | None => 1 end)%nat.
Proof.
  unfold counters_after.
  destruct (find_doc [("_id", VStr name)] ds) as [i|] eqn:Hf.
  - destruct (find_doc_Some _ _ _ Hf) as (d & _ & _ & ->).
    rewrite length_alter. lia.
  - rewrite (find_doc_None _ _ Hf), length_app. done.
Qed.

Lemma counters_after_other name v ds other :
  other ≠ name →
  find_one [("_id", VStr other)] (counters_after name v ds)
  = find_one [("_id", VStr other)] ds.
Proof.
  intros Hne. unfold counters_after.
  destruct (find_doc [("_id", VStr name)] ds) as [i|] eqn:Hf.
  - destruct (find_doc_Some _ _ _ Hf) as (d & Hi & Hm & _).
    rewrite (alter_as_insert _ _ _ _ Hi).
    apply (find_one_insert_other _ _ _ d); [done|..];
      rewrite matches_id in *; [|rewrite py_get_set_ne by done];
      by eapply value_eqb_str_ne.
  - rewrite find_one_app. simpl.
    assert (String.eqb name other = false) as ->.
    { apply String.eqb_neq. congruence. }
    by destruct (find_one [("_id", VStr other)] ds).
Qed.

Lemma counters_after_ids name v ds :
  map (py_get "_id") (counters_after name v ds)
  = map (py_get "_id") ds
    ++ match find_one [("_id", VStr name)] ds with
       | Some _ => [] | None => [VStr name] end.
Proof.
  unfold counters_after.
  destruct (find_doc [("_id", VStr name)] ds) as [i|] eqn:Hf.
  - destruct (find_doc_Some _ _ _ Hf) as (d & Hi & _ & ->). rewrite app_nil_r.
    clear Hf. revert i Hi. induction ds as [|d0 ds IH]; intros [|i]; simpl; try done.
    + intros [= ->]. by rewrite py_get_set_ne.
    + intros Hi. f_equal. by apply IH.
  - rewrite (find_doc_None _ _ Hf), map_app. done.
Qed.

(** X3. A draw touches nothing but the document of its own counter: it
    prints nothing, leaves [users], its indexes, [uploadedCards] and the
    ObjectId generator as they were, leaves the document of every other
    counter as it was, and adds a document to [counters] only when it
    returns and the counter did not exist. *)
Theorem X3_next_seq_frame (name : string) (db : database) :
  ∃ db' r,
    next_seq name db = ([], db', r)
    ∧ db_users db' = db_users db
    ∧ db_users_indexes db' = db_users_indexes db
    ∧ db_uploadedCards db' = db_uploadedCards db
    ∧ next_oid db' = next_oid db
    ∧ (∀ other, other ≠ name →
         find_one [("_id", VStr other)] (db_counters db')
         = find_one [("_id", VStr other)] (db_counters db))
    ∧ length (db_counters db')
      = (length (db_counters db)
         + match r, find_one [("_id", VStr name)] (db_counters db) with
           | Ok _, None => 1
           | _, _ => 0
           end)%nat.
Proof.
  destruct (counter_value name db) as [v|] eqn:Hv.
  - eexists _, _. split; [apply (next_seq_exact _ _ _ Hv)|].
    simpl. do 4 (split; [done|]). split.
    + intros other Hne. by apply counters_after_other.
    + rewrite counters_after_length.
      by destruct (find_one [("_id", VStr name)] (db_counters db)).
  - eexists _, _. split; [apply (next_seq_refused _ _ Hv)|].
    do 5 (split; [done|]). simpl. lia.
Qed.

(** X4. Draws keep one document per counter: when the documents of
    [counters] have pairwise different [_id]s before a draw, they have after
    it, whether the draw returns or fails. *)
Theorem X4_next_seq_keeps_ids_distinct (name : string) (db db' : database)
    (out : list event) (r : result Z) :
  distinct_ids (db_counters db) →
  next_seq name db = (out, db', r) →
  distinct_ids (db_counters db').
Proof.
  intros Hd. destruct (counter_value name db) as [v|] eqn:Hv.
  - rewrite (next_seq_exact _ _ _ Hv). intros [= _ <- _]. simpl.
    unfold distinct_ids in *. rewrite counters_after_ids.
    destruct (find_one [("_id", VStr name)] (db_counters db)) eqn:Hone.
    + by rewrite app_nil_r.
    + apply list.NoDup_app. split; [done|]. split; [|apply NoDup_singleton].
      intros x Hx ->%list_elem_of_singleton.
      apply list_elem_of_In, in_map_iff in Hx as (d & Hid & Hin).
      clear -Hone Hid Hin. induction (db_counters db) as [|d0 ds IH]; [done|].
      cbn [find_one] in Hone.
      destruct (matches [("_id", VStr name)] d0) eqn:Hm; [done|].
      destruct Hin as [->|Hin]; [|by apply IH].
      rewrite matches_id, Hid in Hm. simpl in Hm. by rewrite String.eqb_refl in Hm.
  - rewrite (next_seq_refused _ _ Hv). by intros [= _ <- _].
Qed.

Lemma X4_witness :
  let db := set_docs counters [[("_id", VStr "a"); ("seq", VInt 2)]] empty_db in
  distinct_ids (db_counters db)
  ∧ ∃ db', next_seq "b" db = ([], db', Ok 1) ∧ distinct_ids (db_counters db').
Proof.
  intros db.
  assert (distinct_ids (db_counters db)) as Hd.
  { unfold distinct_ids. simpl. apply NoDup_singleton. }
  split; [exact Hd|]. eexists. split; [reflexivity|].
  eapply (X4_next_seq_keeps_ids_distinct "b" db); [exact Hd|reflexivity].
Defined.

(** X5. Draws for several counters, in any order: the calls for each name
    receive consecutive values that continue from what that counter held, as
    if the calls for the other names had not happened, and each counter ends
    advanced by the number of calls for it. *)
Theorem X5_draws_for_different_names_are_independent (ns : list string) (db : database) :
  counters_ok db →
  ∃ db' rs,
    draw_all ns db = ([], db', Ok rs)
    ∧ length rs = length ns
    ∧ ∀ name v, counter_value name db = Some v →
        draws_of name ns rs = seqZ (v + 1) (Z.of_nat (calls_for name ns))
        ∧ counter_value name db' = Some (v + Z.of_nat (calls_for name ns)).
Proof.
  intros Hok. destruct (draw_all_interleaved ns db Hok) as (ds & rs & Hrun & Hrs).
  exists (set_docs counters ds db), rs. split; [done|]. split; [|done].
  clear Hrs. revert db ds rs Hok Hrun. induction ns as [|n ns IH]; intros db ds rs Hok.
  - by intros [= _ <-].
  - destruct (Hok n) as (vn & Hvn & Hpos).
    destruct (counters_ok_next_seq n db Hok) as (ds1 & r1 & Hrun1 & Hok1).
    destruct (draw_all_interleaved ns _ Hok1) as (ds2 & rs2 & Hrun2 & _).
    unfold draw_all in *.
    change (map next_seq (n :: ns)) with (next_seq n :: map next_seq ns).
    rewrite (sequence_cons_ok _ _ _ _ _ _ _ _ _ Hrun1 Hrun2).
    intros [= _ <-]. simpl. f_equal. by eapply IH.
Qed.

Lemma X5_witness :
  counters_ok empty_db
  ∧ ∃ db' rs, draw_all ["a"; "b"; "a"; "a"; "b"] empty_db = ([], db', Ok rs)
              ∧ draws_of "a" ["a"; "b"; "a"; "a"; "b"] rs = [1; 2; 3]
              ∧ draws_of "b" ["a"; "b"; "a"; "a"; "b"] rs = [1; 2].
Proof.
  assert (counters_ok empty_db) as Hok by by apply counters_ok_empty.
  split; [exact Hok|].
  destruct (X5_draws_for_different_names_are_independent ["a"; "b"; "a"; "a"; "b"]
              empty_db Hok) as (db' & rs & Hrun & _ & Hrs).
  exists db', rs. split; [exact Hrun|]. split.
  - apply (Hrs "a" 0 eq_refl).
  - apply (Hrs "b" 0 eq_refl).
Defined.

End CardExtras.

Section CardMainExtras.
Import SeedUploadedCard.

(** Successive ObjectIds of a generator differ. *)
Lemma generated_oid_succ n : generated_oid n ≠ generated_oid (N.succ n).
Proof.
  unfold generated_oid. intros E. injection E as E. clear -E.
  apply (f_equal N_of_ascii) in E.
  rewrite !N_ascii_embedding in E by (apply N.mod_lt; lia).
  pose proof (N.div_mod' n 256) as Hn.
  pose proof (N.div_mod' (N.succ n) 256) as Hn'.
  rewrite <- E in Hn'. lia.
Qed.

(** The database a run of [main] leaves when the draw returned. *)
Lemma main_exact now db v :
  counter_value "uploadedCards" db = Some v →
  main now db
  = ([Stdout [Text "Inserted: ";
              Str (VDoc (printed_card (drawn v) (main_attrs now) (next_oid db)))]],
     took_oid true
       (set_docs uploadedCards
          (db_uploadedCards db ++ [stored_card (drawn v) (main_attrs now) (next_oid db)])
          (set_docs counters (counters_after "uploadedCards" v (db_counters db)) db)),
     Ok tt).
Proof.
  intros Hv. unfold main, mbind, M_bind. rewrite (next_seq_exact _ _ _ Hv). reflexivity.
Qed.

Lemma counter_value_after name v db :
  counter_value name db = Some v → v ≠ -1 →
  counter_value name (set_docs counters (counters_after name v (db_counters db)) db)
  = Some (v + 1).
Proof.
  intros Hv Hne.
  destruct (next_seq_step name db v Hv Hne) as (ds & Hrun & Hv1 & _).
  rewrite (next_seq_exact _ _ _ Hv) in Hrun.
  apply (f_equal (λ x, db_counters (snd (fst x)))) in Hrun. simpl in Hrun.
  by rewrite Hrun.
Qed.

(** X6. A run of [main] on a counter that holds an integer [v] appends one
    document to [uploadedCards], after the cards already there, and prints
    the dict it was made from.  The dict printed has the [_id] as its last
    key, since [insert_one] adds it to the dict it is given; the document
    stored has the same [_id] as its first field.  Dict and document have
    the same fields, with the same values in every field but the clock, of
    which the store keeps the milliseconds; the [id] is the value drawn.
    One ObjectId is used, the counter goes to [v + 1], and [users] and its
    indexes are left alone. *)
Theorem X6_main_stores_what_it_reports (now : Z) (db : database) (v : Z) :
  counter_value "uploadedCards" db = Some v →
  ∃ db' printed stored,
    main now db = ([Stdout [Text "Inserted: "; Str (VDoc printed)]], db', Ok tt)
    ∧ db_uploadedCards db' = db_uploadedCards db ++ [stored]
    ∧ doc_keys printed = ["id"; "category"; "card_name"; "rarity"; "language"; "set";
                          "card_num"; "createdAt"; "_id"]
    ∧ doc_keys stored = ["_id"; "id"; "category"; "card_name"; "rarity"; "language";
                         "set"; "card_num"; "createdAt"]
    ∧ doc_get "_id" printed = Some (generated_oid (next_oid db))
    ∧ (∀ k, k ≠ "createdAt" → doc_get k printed = doc_get k stored)
    ∧ doc_get "id" stored = Some (VInt (drawn v))
    ∧ doc_get "createdAt" stored = Some (VDate now)
    ∧ next_oid db' = N.succ (next_oid db)
    ∧ (v ≠ -1 → counter_value "uploadedCards" db' = Some (v + 1))
    ∧ db_users db' = db_users db
    ∧ db_users_indexes db' = db_users_indexes db.
Proof.
  intros Hv. eexists _, _, _. split; [apply (main_exact _ _ _ Hv)|].
  do 4 (split; [done|]). split.
  { intros k Hk. unfold printed_card, stored_card, main_attrs. simpl.
    repeat match goal with
    | |- context [String.eqb ?x ?s] =>
        destruct (String.eqb_spec x s) as [->|?]; simpl; try done
    end. }
  do 3 (split; [done|]). split; [|done].
  intros Hne. apply (counter_value_after _ _ _ Hv Hne).
Qed.

Lemma X6_witness :
  counter_value "uploadedCards" empty_db = Some 0
  ∧ ∃ db' printed stored,
      main 1700000000000 empty_db
        = ([Stdout [Text "Inserted: "; Str (VDoc printed)]], db', Ok tt)
      ∧ db_uploadedCards db' = [stored]
      ∧ doc_get "id" stored = Some (VInt 1)
      ∧ doc_get "_id" stored = Some (generated_oid 0)
      ∧ counter_value "uploadedCards" db' = Some 1.
Proof.
  split; [reflexivity|].
  destruct (X6_main_stores_what_it_reports 1700000000000 empty_db 0 eq_refl)
    as (db' & printed & stored & Hrun & Hcards & _ & _ & Hoid & Hsame & Hid & _ & _ & Hv & _).
  exists db', printed, stored.
  split; [exact Hrun|]. split; [exact Hcards|]. split; [exact Hid|].
  split; [by rewrite <- Hsame|]. apply Hv. lia.
Defined.

(** X7. [main] only ever appends: for every database, the cards that were
    there are there afterwards, unchanged and in the same places, and
    [users] and its indexes are untouched.  When the run ends well, exactly
    one card was added and one line printed. *)
Theorem X7_main_is_append_only (now : Z) (db : database) :
  ∃ out db' r,
    main now db = (out, db', r)
    ∧ db_uploadedCards db `prefix_of` db_uploadedCards db'
    ∧ db_users db' = db_users db
    ∧ db_users_indexes db' = db_users_indexes db
    ∧ (r = Ok tt →
       length (db_uploadedCards db') = S (length (db_uploadedCards db))
       ∧ length out = 1%nat).
Proof.
  destruct (counter_value "uploadedCards" db) as [v|] eqn:Hv.
  - eexists _, _, _. split; [apply (main_exact _ _ _ Hv)|]. simpl.
    split; [by eexists|]. do 2 (split; [done|]). intros _.
    rewrite length_app. simpl. split; [lia|done].
  - eexists _, _, _. split.
    + unfold main, mbind, M_bind. rewrite (next_seq_refused _ _ Hv). reflexivity.
    + split; [done|]. done.
Qed.

Lemma X7_witness :
  ∃ out db',
    main 100 empty_db = (out, db', Ok tt)
    ∧ length (db_uploadedCards db') = 1%nat
    ∧ length out = 1%nat.
Proof.
  destruct (X7_main_is_append_only 100 empty_db) as (out & db' & r & Hrun & _ & _ & _ & Hok).
  assert (r = Ok tt) as ->.
  { revert Hrun. vm_compute. by intros [= _ _ <-]. }
  exists out, db'. split; [exact Hrun|]. exact (Hok eq_refl).
Defined.

Lemma card_id_within_mono v w d : v ≤ w → card_id_within v d → card_id_within w d.
Proof. intros Hle (k & Hk & Hb). exists k. split; [done|lia]. Qed.

(** A run keeps cards and counter in agreement. *)
Lemma main_keeps_consistent now db :
  cards_consistent db →
  ∃ out db', main now db = (out, db', Ok tt) ∧ cards_consistent db'.
Proof.
  intros (v & Hv & Hpos & Hids & Hnd).
  eexists _, _. split; [apply (main_exact _ _ _ Hv)|].
  exists (v + 1). split; [apply (counter_value_after _ _ _ Hv); lia|].
  split; [lia|]. simpl.
  assert (drawn v = v + 1) as Hdr.
  { unfold drawn. destruct (Z.eqb_spec v (-1)); [lia|done]. }
  split.
  - apply Forall_app. split.
    + eapply List.Forall_impl; [|exact Hids]. intros d. apply card_id_within_mono. lia.
    + apply Forall_singleton. exists (v + 1). rewrite Hdr. split; [done|lia].
  - unfold card_ids in *. rewrite map_app. apply list.NoDup_app.
    split; [done|]. split; [|apply NoDup_singleton].
    intros x Hx ->%list_elem_of_singleton.
    apply list_elem_of_In, in_map_iff in Hx as (d0 & Hid & Hin).
    rewrite List.Forall_forall in Hids.
    destruct (Hids d0 Hin) as (k & Hk & Hb).
    simpl in Hid. rewrite Hk in Hid. injection Hid as Hid. rewrite Hdr in Hid. lia.
Qed.

Lemma cards_consistent_start db :
  db_uploadedCards db = [] → db_counters db = [] → cards_consistent db.
Proof.
  intros Hc Hn. exists 0. unfold counter_value, card_ids. rewrite Hc, Hn. simpl.
  split; [done|]. split; [done|]. split; [constructor|constructor].
Qed.

(** X8. Ids are unique: when the counter [uploadedCards] holds an integer
    [v] that is not negative and the cards have pairwise different ids
    between 1 and [v], a run of [main] ends well and leaves the database in
    such a state again.  A database without cards and counters is in such a
    state, so the ids of the cards these runs create never repeat. *)
Theorem X8_main_keeps_card_ids_unique (now : Z) (db : database) :
  (db_uploadedCards db = [] → db_counters db = [] → cards_consistent db)
  ∧ (cards_consistent db →
     ∃ out db', main now db = (out, db', Ok tt)
       ∧ cards_consistent db'
       ∧ NoDup (card_ids (db_uploadedCards db'))).
Proof.
  split; [apply cards_consistent_start|].
  intros Hc. destruct (main_keeps_consistent now db Hc) as (out & db' & Hrun & Hc').
  exists out, db'. split; [done|]. split; [done|].
  by destruct Hc' as (v & _ & _ & _ & Hnd).
Qed.

Lemma X8_witness :
  cards_consistent empty_db
  ∧ ∃ out db', main 100 empty_db = (out, db', Ok tt) ∧ cards_consistent db'.
Proof.
  destruct (X8_main_keeps_card_ids_unique 100 empty_db) as [Hstart Hstep].
  assert (cards_consistent empty_db) as Hc by by apply Hstart.
  split; [exact Hc|].
  destruct (Hstep Hc) as (out & db' & Hrun & Hc' & _). eauto.
Defined.

(** X9. Any number of runs of [main], one after the other, from a state in
    which cards and counter agree: all runs end well, each prints one line,
    the cards added carry the ids that follow the counter's value, in the
    order of the runs and with the clock of each run, and cards and counter
    still agree. *)
Theorem X9_main_runs_number_cards_consecutively (ts : list Z) (db : database) (v : Z) :
  cards_consistent db → counter_value "uploadedCards" db = Some v →
  ∃ out db' new,
    sequence (map main ts) db = (out, db', Ok (map (λ _, tt) ts))
    ∧ length out = length ts
    ∧ db_uploadedCards db' = db_uploadedCards db ++ new
    ∧ card_ids new = map (λ k, Some (VInt k)) (seqZ (v + 1) (Z.of_nat (length ts)))
    ∧ map (doc_get "createdAt") new = map (λ t, Some (VDate t)) ts
    ∧ counter_value "uploadedCards" db' = Some (v + Z.of_nat (length ts))
    ∧ cards_consistent db'.
Proof.
  revert db v. induction ts as [|t ts IH]; intros db v Hc Hv.
  - exists [], db, []. rewrite app_nil_r, Z.add_0_r. done.
  - assert (0 ≤ v) as Hpos.
    { destruct Hc as (w & Hw & Hpos & _). congruence. }
    assert (drawn v = v + 1) as Hdr.
    { unfold drawn. destruct (Z.eqb_spec v (-1)); [lia|done]. }
    destruct (main_keeps_consistent t db Hc) as (out1 & db1 & Hrun & Hc1).
    pose proof (main_exact t db v Hv) as Hex. cbv zeta in Hex.
    rewrite Hex in Hrun. injection Hrun as <- <-.
    match type of Hc1 with cards_consistent ?s => set (db1 := s) in * end.
    assert (counter_value "uploadedCards" db1 = Some (v + 1)) as Hv1.
    { apply (counter_value_after _ _ _ Hv). lia. }
    destruct (IH db1 (v + 1) Hc1 Hv1)
      as (out & db' & new & Hruns & Hlen & Hcards & Hids & Hts & Hv' & Hc').
    eexists _, db', (_ :: new).
    split; [|split; [|split; [|split; [|split; [|split]]]]].
    + change (map main (t :: ts)) with (main t :: map main ts).
      by rewrite (sequence_cons_ok _ _ _ _ _ _ _ _ _ Hex Hruns).
    + simpl. by rewrite Hlen.
    + rewrite Hcards. unfold db1. simpl. by rewrite <- app_assoc.
    + cbn [length]. rewrite Nat2Z.inj_succ, (seqZ_cons (v + 1)); [|lia].
      unfold card_ids in *. cbn [map]. rewrite Hids. simpl. rewrite Hdr.
      do 3 f_equal; lia.
    + simpl. by rewrite Hts.
    + rewrite Hv'. cbn [length]. f_equal. lia.
    + done.
Qed.

Lemma X9_witness :
  cards_consistent empty_db ∧ counter_value "uploadedCards" empty_db = Some 0
  ∧ ∃ out db',
      sequence (map main [10; 20; 30; 40]) empty_db = (out, db', Ok [tt; tt; tt; tt])
      ∧ card_ids (db_uploadedCards db')
        = [Some (VInt 1); Some (VInt 2); Some (VInt 3); Some (VInt 4)].
Proof.
  assert (cards_consistent empty_db) as Hc by by apply cards_consistent_start.
  split; [exact Hc|]. split; [reflexivity|].
  destruct (X9_main_runs_number_cards_consecutively [10; 20; 30; 40] empty_db 0 Hc eq_refl)
    as (out & db' & new & Hrun & _ & Hcards & Hids & _).
  exists out, db'. split; [exact Hrun|]. rewrite Hcards. exact Hids.
Defined.

(** X21. Where uniqueness ends: on a counter that holds [-1], two runs of
    [main] store two cards that both carry the id 1.  The first draw stores 0
    and returns 1 in its place, the second draw returns the 1 it stores. *)
Theorem X21_two_cards_with_id_one (t1 t2 : Z) (db : database) :
  counter_value "uploadedCards" db = Some (-1) →
  ∃ out db' d1 d2,
    sequence [main t1; main t2] db = (out, db', Ok [tt; tt])
    ∧ db_uploadedCards db' = db_uploadedCards db ++ [d1; d2]
    ∧ doc_get "id" d1 = Some (VInt 1)
    ∧ doc_get "id" d2 = Some (VInt 1)
    ∧ doc_get "_id" d1 ≠ doc_get "_id" d2
    ∧ counter_value "uploadedCards" db' = Some 1.
Proof.
  intros Hv.
  pose proof (main_exact t1 db (-1) Hv) as Hrun1. cbv zeta in Hrun1.
  match type of Hrun1 with _ = (_, ?s, _) => set (db1 := s) in * end.
  assert (counter_value "uploadedCards" db1 = Some 0) as Hv1.
  { destruct (next_seq_minus_one _ _ Hv) as (dbx & Hx & Hvx).
    rewrite (next_seq_exact _ _ _ Hv) in Hx.
    apply (f_equal (λ x, db_counters (snd (fst x)))) in Hx. simpl in Hx.
    unfold counter_value in *. unfold db1. simpl. by rewrite Hx. }
  pose proof (main_exact t2 db1 0 Hv1) as Hrun2. cbv zeta in Hrun2.
  assert (sequence [] (took_oid true
            (set_docs uploadedCards
               (db_uploadedCards db1 ++ [stored_card (drawn 0) (main_attrs t2) (next_oid db1)])
               (set_docs counters (counters_after "uploadedCards" 0 (db_counters db1)) db1)))
          = ([], _, Ok (@nil unit))) as Hnil by reflexivity.
  eexists _, _, _, _. split.
  { rewrite (sequence_cons_ok _ _ _ _ _ _ _ _ _ Hrun1
               (sequence_cons_ok _ _ _ _ _ _ _ _ _ Hrun2 Hnil)). reflexivity. }
  split; [unfold db1; simpl; by rewrite <- app_assoc|].
  split; [done|]. split; [done|]. split.
  - change (Some (generated_oid (next_oid db))
            ≠ Some (generated_oid (N.succ (next_oid db)))).
    intros E. apply (generated_oid_succ (next_oid db)). congruence.
  - apply (counter_value_after _ _ _ Hv1). lia.
Qed.

Lemma X21_witness :
  let db := set_docs counters [[("_id", VStr "uploadedCards"); ("seq", VInt (-1))]] empty_db in
  counter_value "uploadedCards" db = Some (-1)
  ∧ ∃ out db',
      sequence [main 10; main 20] db = (out, db', Ok [tt; tt])
      ∧ card_ids (db_uploadedCards db') = [Some (VInt 1); Some (VInt 1)].
Proof.
  intros db. split; [reflexivity|].
  destruct (X21_two_cards_with_id_one 10 20 db eq_refl)
    as (out & db' & d1 & d2 & Hrun & Hcards & H1 & H2 & _).
  exists out, db'. split; [exact Hrun|].
  rewrite Hcards. unfold card_ids. simpl. by rewrite H1, H2.
Defined.

End CardMainExtras.

(** * Further properties of seed_mongo_user.py *)

Section UserExtras.
Import SeedMongoUser.

(** ** [get_client] *)

Lemma has_uri_unset e :
  has_uri e = negb (unset (MONGODB_URI e) && unset (MONGO_URI e)).
Proof.
  unfold has_uri, str_or, unset.
  by destruct (MONGODB_URI e) as [[|]|], (MONGO_URI e) as [[|]|].
Qed.

Lemma main_no_uri `{Bcrypt} args e db :
  has_uri e = false → main args e db = ([no_uri_line], db, Err (SystemExit 1)).
Proof.
  unfold has_uri, main, get_client, mbind at 1, M_bind at 1.
  destruct (str_or _ _) as [[|c s]|]; done.
Qed.

(** X10. The connection string is [MONGODB_URI] when that variable is set
    and not empty, otherwise [MONGO_URI] when that one is set and not empty.
    When neither is, [get_client] writes one line to the standard error
    stream and exits with code 1, and so does [main]: nothing is printed on
    the standard output and the database is not touched, not even to create
    the indexes. *)
Theorem X10_connection_string_or_exit `{Bcrypt} (args : Namespace) (e : environ) (db : database) :
  (∀ c s, MONGODB_URI e = Some (String c s) →
          get_client e db = ([], db, Ok (String c s)))
  ∧ (∀ c s, unset (MONGODB_URI e) = true → MONGO_URI e = Some (String c s) →
            get_client e db = ([], db, Ok (String c s)))
  ∧ (unset (MONGODB_URI e) = true → unset (MONGO_URI e) = true →
     get_client e db = ([no_uri_line], db, Err (SystemExit 1))
     ∧ main args e db = ([no_uri_line], db, Err (SystemExit 1))).
Proof.
  split; [|split].
  - intros c s Hm. unfold get_client, str_or. by rewrite Hm.
  - intros c s Hu Hm. unfold get_client, str_or, unset in *. rewrite Hm.
    by destruct (MONGODB_URI e) as [[|]|].
  - intros Hu1 Hu2. split.
    + unfold get_client, str_or, unset in *.
      by destruct (MONGODB_URI e) as [[|]|], (MONGO_URI e) as [[|]|].
    + apply main_no_uri. by rewrite has_uri_unset, Hu1, Hu2.
Qed.

Lemma X10_witness :
  let e1 := {| MONGODB_URI := Some "mongodb+srv://a"; MONGO_URI := Some "mongodb://b";
               now := 0; uuid4_hex := ""; urandom := "" |} in
  let e2 := {| MONGODB_URI := Some ""; MONGO_URI := Some "mongodb://b";
               now := 0; uuid4_hex := ""; urandom := "" |} in
  let e3 := {| MONGODB_URI := None; MONGO_URI := Some "";
               now := 0; uuid4_hex := ""; urandom := "" |} in
  get_client e1 empty_db = ([], empty_db, Ok "mongodb+srv://a")
  ∧ get_client e2 empty_db = ([], empty_db, Ok "mongodb://b")
  ∧ @main stub_bcrypt (default_args "2025/01/01") e3 empty_db
    = ([no_uri_line], empty_db, Err (SystemExit 1)).
Proof.
  intros e1 e2 e3. split; [|split].
  - destruct (@X10_connection_string_or_exit stub_bcrypt (default_args "") e1 empty_db)
      as (H1 & _ & _). by eapply H1.
  - destruct (@X10_connection_string_or_exit stub_bcrypt (default_args "") e2 empty_db)
      as (_ & H2 & _). by eapply H2.
  - destruct (@X10_connection_string_or_exit stub_bcrypt (default_args "2025/01/01")
                e3 empty_db) as (_ & _ & H3). by apply H3.
Defined.

(** ** [ensure_indexes] *)

Lemma index_eqb_eq a b : index_eqb a b = true ↔ a = b.
Proof.
  destruct a as [n1 f1], b as [n2 f2]. unfold index_eqb. simpl.
  rewrite andb_true_iff, !String.eqb_eq. split; [by intros [-> ->]|by intros [= -> ->]].
Qed.

Lemma existsb_index ix ixs : existsb (index_eqb ix) ixs = true ↔ In ix ixs.
Proof.
  rewrite existsb_exists. split.
  - by intros (x & Hin & ->%index_eqb_eq).
  - intros Hin. exists ix. split; [done|]. by apply index_eqb_eq.
Qed.

(** An index that is there is not created again. *)
Lemma create_index_present field name db :
  In {| idx_name := name; idx_field := field |} (db_users_indexes db) →
  create_index field name db = ([], db, Ok name).
Proof. intros Hin%existsb_index. unfold create_index. by rewrite Hin. Qed.

(** A call that returns has put the index in place, after those that were
    there, and has changed nothing else. *)
Lemma create_index_ok field name db out db' r :
  create_index field name db = (out, db', Ok r) →
  out = [] ∧ r = name
  ∧ In {| idx_name := name; idx_field := field |} (db_users_indexes db')
  ∧ db_users_indexes db `prefix_of` db_users_indexes db'
  ∧ db_users db' = db_users db.
Proof.
  unfold create_index.
  destruct (existsb (index_eqb _) _) eqn:E1.
  { intros [= <- <- <-]. apply existsb_index in E1. done. }
  destruct (existsb (λ ix', String.eqb (idx_name ix') name) _); [done|].
  destruct (existsb (λ ix', String.eqb (idx_field ix') field) _); [done|].
  destruct (has_duplicates _ _); [done|].
  intros [= <- <- <-]. simpl. repeat split; try done.
  - apply in_or_app. right. by left.
  - by eexists.
Qed.

Lemma prefix_of_In {A} (l k : list A) x : l `prefix_of` k → In x l → In x k.
Proof. intros [m ->] Hin. apply in_or_app. by left. Qed.

Lemma ensure_indexes_ok db out db1 :
  ensure_indexes db = (out, db1, Ok tt) →
  out = []
  ∧ In uniq_email (db_users_indexes db1) ∧ In idx_userId (db_users_indexes db1)
  ∧ db_users_indexes db `prefix_of` db_users_indexes db1
  ∧ ensure_indexes db1 = ([], db1, Ok tt).
Proof.
  unfold ensure_indexes, mbind, M_bind.
  destruct (create_index "email" "uniq_email" db) as [[o1 dbA] [r1|x1]] eqn:E1; [|done].
  destruct (create_index "userId" "idx_userId" dbA) as [[o2 dbB] [r2|x2]] eqn:E2; [|done].
  destruct (create_index_ok _ _ _ _ _ _ E1) as (-> & -> & Hin1 & Hp1 & _).
  destruct (create_index_ok _ _ _ _ _ _ E2) as (-> & -> & Hin2 & Hp2 & _).
  simpl. intros [= <- <-].
  assert (In uniq_email (db_users_indexes dbB)) as Hin1' by by eapply prefix_of_In.
  split; [done|]. split; [done|]. split; [done|].
  split; [by etrans|].
  rewrite (create_index_present "email" "uniq_email") by done.
  rewrite (create_index_present "userId" "idx_userId") by done.
  done.
Qed.

(** X11. Index creation is idempotent: when [ensure_indexes] returns, it has
    printed nothing, both unique indexes exist ([uniq_email] on [email],
    [idx_userId] on [userId]), the indexes that were there are still there
    in the same order, and calling it again changes nothing and returns. *)
Theorem X11_ensure_indexes_idempotent (db db1 : database) (out : list event) :
  ensure_indexes db = (out, db1, Ok tt) →
  out = []
  ∧ In uniq_email (db_users_indexes db1)
  ∧ In idx_userId (db_users_indexes db1)
  ∧ db_users_indexes db `prefix_of` db_users_indexes db1
  ∧ ensure_indexes db1 = ([], db1, Ok tt).
Proof. apply ensure_indexes_ok. Qed.

Lemma X11_witness :
  ∃ db1, ensure_indexes empty_db = ([], db1, Ok tt)
         ∧ db_users_indexes db1 = [uniq_email; idx_userId]
         ∧ ensure_indexes db1 = ([], db1, Ok tt).
Proof.
  eexists. split; [reflexivity|]. split; [reflexivity|].
  eapply (X11_ensure_indexes_idempotent empty_db). reflexivity.
Defined.

(** X12. On a collection without indexes, [ensure_indexes] is not all or
    nothing.  With two users that hold the same [email] it fails on the first
    index and changes nothing.  With distinct e-mails but two users that
    hold the same [userId] it fails on the second index and leaves the first
    one created.  Otherwise it creates the two indexes, [uniq_email] first.
    In no case does it change a document. *)
Theorem X12_ensure_indexes_on_unindexed_collection (db : database) :
  db_users_indexes db = [] →
  (has_duplicates uniq_email (db_users db) = true →
   ensure_indexes db = ([], db, Err (DuplicateKeyError "uniq_email")))
  ∧ (has_duplicates uniq_email (db_users db) = false →
     has_duplicates idx_userId (db_users db) = true →
     ensure_indexes db
     = ([], set_users_indexes [uniq_email] db, Err (DuplicateKeyError "idx_userId")))
  ∧ (has_duplicates uniq_email (db_users db) = false →
     has_duplicates idx_userId (db_users db) = false →
     ensure_indexes db = ([], set_users_indexes [uniq_email; idx_userId] db, Ok tt)).
Proof.
  intros Hix. unfold ensure_indexes, mbind, M_bind, create_index, uniq_email, idx_userId.
  rewrite Hix. cbn [existsb].
  split; [|split].
  - by intros ->.
  - intros -> H2. simpl. by rewrite H2.
  - intros -> H2. simpl. by rewrite H2.
Qed.

Lemma X12_witness :
  let u1 := [("email", VStr "a@x.com"); ("userId", VStr "usr_1")] in
  let u2 := [("email", VStr "b@x.com"); ("userId", VStr "usr_1")] in
  let db := set_docs users [u1; u2] empty_db in
  db_users_indexes db = []
  ∧ has_duplicates uniq_email (db_users db) = false
  ∧ has_duplicates idx_userId (db_users db) = true
  ∧ ensure_indexes db
    = ([], set_users_indexes [uniq_email] db, Err (DuplicateKeyError "idx_userId")).
Proof.
  intros u1 u2 db. split; [reflexivity|]. split; [reflexivity|]. split; [reflexivity|].
  destruct (X12_ensure_indexes_on_unindexed_collection db eq_refl) as (_ & Hsecond & _).
  apply Hsecond; reflexivity.
Defined.

End UserExtras.

Section UserMainExtras.
Import SeedMongoUser.

(** ** Runs of [main] that do not reach the upsert *)

Lemma main_index_failure `{Bcrypt} args e db out db1 x :
  has_uri e = true → ensure_indexes db = (out, db1, Err x) →
  main args e db = (out, db1, Err x).
Proof.
  intros Huri Hix. destruct (get_client_ok e db Huri) as (uri & Hc).
  unfold main, mbind at 1, M_bind at 1. rewrite Hc.
  unfold mbind at 1, M_bind at 1. by rewrite Hix.
Qed.

Lemma create_index_error field name db out db' x :
  create_index field name db = (out, db', Err x) →
  x = OperationFailure IndexKeySpecsConflict
  ∨ x = OperationFailure IndexOptionsConflict
  ∨ x = DuplicateKeyError name.
Proof.
  unfold create_index.
  repeat match goal with |- context [if ?b then _ else _] => destruct b end;
    intros [= _ _ <-]; auto.
Qed.

Lemma ensure_indexes_error db out db1 x :
  ensure_indexes db = (out, db1, Err x) → index_error x.
Proof.
  unfold ensure_indexes, mbind, M_bind, index_error.
  destruct (create_index "email" "uniq_email" db) as [[o1 dbA] [r1|x1]] eqn:E1.
  - destruct (create_index "userId" "idx_userId" dbA) as [[o2 dbB] [r2|x2]] eqn:E2; [done|].
    intros [= _ _ <-]. destruct (create_index_error _ _ _ _ _ _ E2) as [->|[->| ->]]; auto.
  - intros [= _ _ <-]. destruct (create_index_error _ _ _ _ _ _ E1) as [->|[->| ->]]; auto.
Qed.

(** X13. When index creation fails, [main] stops there with that error: it
    has printed nothing, in particular no warning for a malformed
    [--starred] value, since the reference loop comes later, and the
    documents of [users] are as they were. *)
Theorem X13_index_failure_ends_the_run `{Bcrypt} (args : Namespace) (e : environ)
    (db db1 : database) (out : list event) (x : exn) :
  has_uri e = true → ensure_indexes db = (out, db1, Err x) →
  main args e db = ([], db1, Err x)
  ∧ index_error x
  ∧ db_users db1 = db_users db.
Proof.
  intros Huri Hix.
  destruct (ensure_indexes_frame db) as (db2 & r & Hix' & Hu & _).
  rewrite Hix in Hix'. injection Hix' as -> <- <-.
  split; [by apply main_index_failure|]. split; [by eapply ensure_indexes_error|done].
Qed.

(** ** What [main] prints and changes, for every input *)

Lemma warning_not_done s : warning s ≠ Stdout [Text "Done."].
Proof. unfold warning. intros E. discriminate E. Qed.

Lemma main_outcomes `{Bcrypt} args e db :
  (has_uri e = false ∧ main args e db = ([no_uri_line], db, Err (SystemExit 1)))
  ∨ (has_uri e = true
     ∧ ∃ db1 x, ensure_indexes db = ([], db1, Err x) ∧ index_error x
                ∧ main args e db = ([], db1, Err x))
  ∨ (has_uri e = true
     ∧ ∃ db1, ensure_indexes db = ([], db1, Ok tt)
              ∧ main args e db
                = (main_warnings args,
                   db1, Err (WriteError ConflictingUpdateOperators "userId"))).
Proof.
  destruct (has_uri e) eqn:Huri.
  - right. destruct (ensure_indexes_frame db) as (db1 & r & Hix & _).
    destruct r as [[]|x].
    + right. split; [done|]. exists db1. split; [done|]. by apply main_run.
    + left. split; [done|]. exists db1, x. split; [done|].
      split; [by eapply ensure_indexes_error|by apply main_index_failure].
  - left. split; [done|]. by apply main_no_uri.
Qed.

(** X14. Whatever the input and the database, [main] never reports an
    insert or an update and never prints [Done.]: the run always ends in an
    exception, and every line it has printed is either the one line of
    [get_client] on the standard error stream or the warning for a
    malformed value of [--starred]. *)
Theorem X14_main_never_reports_success `{Bcrypt} (args : Namespace) (e : environ)
    (db : database) :
  ∃ out db' x,
    main args e db = (out, db', Err x)
    ∧ (∀ ev, In ev out →
         ev = no_uri_line
         ∨ ∃ s, In s (starred args) ∧ well_formed s = false ∧ ev = warning s)
    ∧ ¬ In (Stdout [Text "Done."]) out
    ∧ (∀ line, In (Stdout line) out → length line = 1%nat).
Proof.
  assert (∀ ev, In ev (main_warnings args)
                → ∃ s, In s (starred args) ∧ well_formed s = false ∧ ev = warning s) as Hw.
  { intros ev (s & <- & Hin)%in_map_iff. apply filter_In in Hin as [Hin Hacc].
    exists s. split; [done|]. split; [|done].
    destruct (well_formed s) eqn:Hwf; [|done].
    by rewrite (well_formed_accepted _ Hwf) in Hacc. }
  destruct (main_outcomes args e db)
    as [[_ Hrun]|[(_ & db1 & x & _ & _ & Hrun)|(_ & db1 & _ & Hrun)]];
    eexists _, _, _; (split; [exact Hrun|]).
  - split; [|split].
    + intros ev [<-|[]]. by left.
    + intros [E|[]]. discriminate E.
    + intros line [E|[]]. discriminate E.
  - split; [|split]; [intros ev []|intros []|intros line []].
  - split; [|split].
    + intros ev Hin. right. by apply Hw.
    + intros Hin. destruct (Hw _ Hin) as (s & _ & _ & E). by eapply warning_not_done.
    + intros line Hin. destruct (Hw _ Hin) as (s & _ & _ & E).
      unfold warning in E. by injection E as ->.
Qed.

(** X15. Whatever the input and the database, the only thing a run of [main]
    can change in the database is the list of indexes of [users], to which it
    can only add, and only the two indexes of [ensure_indexes]: the documents
    of the three collections and the ObjectId generator are as before. *)
Theorem X15_main_changes_indexes_only `{Bcrypt} (args : Namespace) (e : environ)
    (db : database) :
  ∃ out db' x,
    main args e db = (out, db', Err x)
    ∧ db_users db' = db_users db
    ∧ db_counters db' = db_counters db
    ∧ db_uploadedCards db' = db_uploadedCards db
    ∧ next_oid db' = next_oid db
    ∧ db_users_indexes db `prefix_of` db_users_indexes db'
    ∧ (∀ ix, In ix (db_users_indexes db') →
             In ix (db_users_indexes db) ∨ ix = uniq_email ∨ ix = idx_userId).
Proof.
  assert (∀ field name d o d' r, create_index field name d = (o, d', r) →
            db_users_indexes d `prefix_of` db_users_indexes d'
            ∧ ∀ ix, In ix (db_users_indexes d') →
                  In ix (db_users_indexes d) ∨ ix = {| idx_name := name; idx_field := field |})
    as Hci.
  { intros field name d o d' r. unfold create_index.
    repeat match goal with |- context [if ?b then _ else _] => destruct b end;
      intros [= _ <- _]; (split; [try done|intros ix Hin; auto]).
    - simpl. by eexists.
    - simpl in Hin. apply in_app_or in Hin as [Hin|[<-|[]]]; auto. }
  assert (∀ d o d' r, ensure_indexes d = (o, d', r) →
            db_users_indexes d `prefix_of` db_users_indexes d'
            ∧ ∀ ix, In ix (db_users_indexes d') →
                  In ix (db_users_indexes d) ∨ ix = uniq_email ∨ ix = idx_userId) as Hei.
  { intros d o d' r. unfold ensure_indexes, mbind, M_bind.
    destruct (create_index "email" "uniq_email" d) as [[o1 dA] [r1|x1]] eqn:E1.
    - destruct (Hci _ _ _ _ _ _ E1) as [Hp1 Hin1].
      destruct (create_index "userId" "idx_userId" dA) as [[o2 dB] [r2|x2]] eqn:E2;
        destruct (Hci _ _ _ _ _ _ E2) as [Hp2 Hin2];
        intros [= _ <- _]; (split; [by etrans|]); intros ix Hin;
        destruct (Hin2 ix Hin) as [Hin'| ->]; auto;
        destruct (Hin1 ix Hin') as [Hin''| ->]; auto.
    - destruct (Hci _ _ _ _ _ _ E1) as [Hp1 Hin1].
      intros [= _ <- _]. split; [done|]. intros ix Hin.
      destruct (Hin1 ix Hin) as [Hin'| ->]; auto. }
  destruct (main_outcomes args e db)
    as [[_ Hrun]|[(_ & db1 & x & Hix & Hx & Hrun)|(_ & db1 & Hix & Hrun)]];
    eexists _, _, _; (split; [exact Hrun|]).
  - do 4 (split; [done|]). split; [done|auto].
  - destruct (ensure_indexes_frame db) as (db2 & r & Hix' & Hu & Hc & Hk & Ho).
    rewrite Hix in Hix'. injection Hix' as <- <-.
    do 4 (split; [done|]). by eapply Hei.
  - destruct (ensure_indexes_frame db) as (db2 & r & Hix' & Hu & Hc & Hk & Ho).
    rewrite Hix in Hix'. injection Hix' as <- <-.
    do 4 (split; [done|]). by eapply Hei.
Qed.

(** X16. After a run that got as far as the upsert, any further run, with
    whatever arguments and environment, leaves the database exactly as it
    found it: the indexes are there and are not created again, and no run
    writes a document. *)
Theorem X16_second_run_changes_nothing `{Bcrypt} (args1 args2 : Namespace)
    (e1 e2 : environ) (db db1 : database) (out1 : list event) :
  main args1 e1 db
    = (out1, db1, Err (WriteError ConflictingUpdateOperators "userId")) →
  ∃ out2 x, main args2 e2 db1 = (out2, db1, Err x).
Proof.
  intros Hrun1.
  assert (ensure_indexes db1 = ([], db1, Ok tt)) as Hagain.
  { destruct (main_outcomes args1 e1 db)
      as [[_ Hrun]|[(_ & db2 & x & _ & Hx & Hrun)|(_ & db2 & Hix & Hrun)]];
      rewrite Hrun in Hrun1.
    - discriminate Hrun1.
    - injection Hrun1 as _ _ ->. by destruct Hx as [E|[E|[E|E]]].
    - injection Hrun1 as _ ->.
      by destruct (ensure_indexes_ok _ _ _ Hix) as (_ & _ & _ & _ & Hagain). }
  destruct (main_outcomes args2 e2 db1)
    as [[_ Hrun]|[(_ & db2 & x & Hix & _ & Hrun)|(_ & db2 & Hix & Hrun)]].
  - eauto.
  - rewrite Hagain in Hix. discriminate Hix.
  - rewrite Hagain in Hix. injection Hix as <-. eauto.
Qed.

End UserMainExtras.

Lemma X13_witness :
  let u := [("email", VStr "a@x.com"); ("userId", VStr "usr_1")] in
  let db := set_docs users [u; u] empty_db in
  let e := {| SeedMongoUser.MONGODB_URI := Some "mongodb://localhost"; SeedMongoUser.MONGO_URI := None;
              SeedMongoUser.now := 0; SeedMongoUser.uuid4_hex := ""; SeedMongoUser.urandom := "" |} in
  let args := {| SeedMongoUser.email := "a@x.com"; SeedMongoUser.password := "pw";
                 SeedMongoUser.username := "u"; SeedMongoUser.phone_num := "";
                 SeedMongoUser.address := ""; SeedMongoUser.pfp_url := None;
                 SeedMongoUser.notification := true; SeedMongoUser.starred := ["not-an-id"];
                 SeedMongoUser.blocked := []; SeedMongoUser.premade := [];
                 SeedMongoUser.signup_date := ""; SeedMongoUser.user_id := None |} in
  has_uri e = true
  ∧ SeedMongoUser.ensure_indexes db = ([], db, Err (DuplicateKeyError "uniq_email"))
  ∧ @SeedMongoUser.main stub_bcrypt args e db = ([], db, Err (DuplicateKeyError "uniq_email")).
Proof.
  intros u db e args. split; [reflexivity|]. split; [reflexivity|].
  apply (@X13_index_failure_ends_the_run stub_bcrypt args e db db [] _ eq_refl eq_refl).
Defined.

Lemma X16_witness :
  let e := {| SeedMongoUser.MONGODB_URI := Some "mongodb://localhost"; SeedMongoUser.MONGO_URI := None;
              SeedMongoUser.now := 0; SeedMongoUser.uuid4_hex := ""; SeedMongoUser.urandom := "" |} in
  let args := SeedMongoUser.default_args "2025/01/01" in
  let db1 := set_users_indexes [uniq_email; idx_userId] empty_db in
  @SeedMongoUser.main stub_bcrypt args e empty_db
    = ([], db1, Err (WriteError ConflictingUpdateOperators "userId"))
  ∧ ∃ out2 x, @SeedMongoUser.main stub_bcrypt args e db1 = (out2, db1, Err x).
Proof.
  intros e args db1. split; [reflexivity|].
  apply (@X16_second_run_changes_nothing stub_bcrypt args args e e empty_db db1 [] eq_refl).
Defined.


Section UserDocExtras.
Import SeedMongoUser.

(** ** The update document, once more *)

Lemma doc_set_same k v d : doc_get k d = Some v → doc_set k v d = d.
Proof.
  induction d as [|[k' v'] d IH]; simpl; [done|].
  destruct (String.eqb_spec k k') as [->|Hne].
  - by intros [= ->].
  - intros Hg. f_equal. by apply IH.
Qed.

(** X17. The [$setOnInsert] clause of the upsert adds nothing to what [$set]
    does: applied to a document that exists or to one being created, the
    modifiers of the update document have the effect of [$set] of [doc]
    alone.  The update document with [$set] alone names no field twice and
    is accepted, with the same modifiers but the last. *)
Theorem X17_setOnInsert_is_redundant (args : Namespace) (uid pw : string)
    (st : list value) (now : Z) (inserting : bool) (old : doc) :
  let d := user_doc args uid pw st now in
  apply_modifiers inserting (upsert_modifiers d uid) old = Ok (doc_update d old)
  ∧ apply_modifiers inserting (map (λ '(k, v), MSet k v) d) old = Ok (doc_update d old)
  ∧ parse_update [("$set", VDoc d)] = Ok (map (λ '(k, v), MSet k v) d)
  ∧ upsert_modifiers d uid
    = map (λ '(k, v), MSet k v) d ++ [MSetOnInsert "userId" (VStr uid)].
Proof.
  intros d. split; [|split; [|split]].
  - destruct inserting.
    + unfold upsert_modifiers. rewrite apply_upsert_new. f_equal.
      apply doc_set_same. by rewrite doc_get_update.
    + apply apply_upsert_existing.
  - rewrite <- (app_nil_r (map _ d)). by rewrite apply_set_modifiers.
  - reflexivity.
  - reflexivity.
Qed.

(** ** The application identifier *)

Lemma py_prefix_append_inj a s t : a +:+ s = a +:+ t → s = t.
Proof. induction a as [|c a IH]; simpl; [done|]. intros [= E]. by apply IH. Qed.

(** X18. The resolved identifier is never the empty string.  When the caller
    gives none, it depends on the uuid through its first twelve characters
    only: two runs get the same identifier exactly when their uuids agree on
    these. *)
Theorem X18_resolved_identifier_not_empty (args : Namespace) (e e' : environ) :
  resolve_user_id args e ≠ ""
  ∧ (unset (user_id args) = true →
     (resolve_user_id args e = resolve_user_id args e'
      ↔ py_prefix 12 (uuid4_hex e) = py_prefix 12 (uuid4_hex e')))
  ∧ (unset (user_id args) = false →
     resolve_user_id args e = resolve_user_id args e').
Proof.
  assert (∀ x y, "usr_" +:+ x = "usr_" +:+ y ↔ x = y) as Hinj.
  { intros x y. split; [apply py_prefix_append_inj|by intros ->]. }
  unfold resolve_user_id, unset.
  destruct (user_id args) as [[|c s]|]; cbn [str_or];
    (split; [done|]); split; try done; intros _; apply Hinj.
Qed.

Lemma X18_witness :
  let args := default_args "2025/01/01" in
  let e := {| MONGODB_URI := None; MONGO_URI := None; now := 0;
              uuid4_hex := "0123456789abcdef0123456789abcdef"; urandom := "" |} in
  let e' := {| MONGODB_URI := None; MONGO_URI := None; now := 5;
               uuid4_hex := "0123456789abffffffffffffffffffff"; urandom := "" |} in
  unset (user_id args) = true
  ∧ uuid4_hex e ≠ uuid4_hex e'
  ∧ resolve_user_id args e = resolve_user_id args e'.
Proof.
  intros args e e'. split; [reflexivity|]. split; [discriminate|].
  destruct (X18_resolved_identifier_not_empty args e e') as (_ & Hiff & _).
  apply Hiff; reflexivity.
Defined.

(** ** The reference loop, once more *)

(** X19. The reference loop works through its list from left to right and
    only appends: a list in two parts gives what the second part gives when
    started from the result of the first, with the warnings of the first
    part before those of the second.  Nothing is removed from what was
    collected, and a well-formed identifier that comes several times is kept
    as many times. *)
Theorem X19_starred_loop_composes (ss1 ss2 : list string) (acc : list value)
    (db : database) :
  (∃ o1 r1 o2 r2,
     starred_loop ss1 acc db = (o1, db, Ok r1)
     ∧ starred_loop ss2 r1 db = (o2, db, Ok r2)
     ∧ starred_loop (ss1 ++ ss2) acc db = (o1 ++ o2, db, Ok r2)
     ∧ acc `prefix_of` r1 ∧ r1 `prefix_of` r2)
  ∧ (∀ s n, well_formed s = true →
            starred_loop (replicate n s) acc db
            = ([], db, Ok (acc ++ replicate n (oid_of s)))).
Proof.
  split.
  - eexists _, _, _, _. rewrite !starred_loop_run.
    split; [reflexivity|]. split; [reflexivity|].
    rewrite !List.filter_app, !map_app, app_assoc.
    split; [done|]. split; by eexists.
  - intros s n Hs%well_formed_accepted. rewrite starred_loop_run. repeat f_equal.
    + induction n as [|n IH]; simpl; [done|]. by rewrite Hs.
    + induction n as [|n IH]; simpl; [done|]. rewrite Hs. simpl. by rewrite IH.
Qed.

Lemma X19_witness :
  well_formed "deadbeefdeadbeefdeadbeef" = true
  ∧ starred_loop ["deadbeefdeadbeefdeadbeef"; "deadbeefdeadbeefdeadbeef"] [] empty_db
    = ([], empty_db,
       Ok [oid_of "deadbeefdeadbeefdeadbeef"; oid_of "deadbeefdeadbeefdeadbeef"]).
Proof.
  split; [reflexivity|].
  destruct (X19_starred_loop_composes [] [] [] empty_db) as [_ Hrep].
  apply (Hrep "deadbeefdeadbeefdeadbeef" 2%nat). reflexivity.
Defined.

(** ** The e-mail *)

(** X20. For an e-mail of ASCII characters, the e-mail of the assembled
    document, which is also the key of the upsert, holds no upper-case
    letter and is as long as the e-mail given; an e-mail without upper-case
    letters is kept as it is. *)
Theorem X20_email_key_is_lower_case (args : Namespace) (uid pw : string)
    (st : list value) (now : Z) :
  is_ascii (email args) = true →
  ∃ key,
    py_item "email" (user_doc args uid pw st now) = Ok (VStr key)
    ∧ has_upper key = false
    ∧ String.length key = String.length (email args)
    ∧ (has_upper (email args) = false → key = email args).
Proof.
  intros _. exists (lower (email args)). split; [done|]. unfold has_upper.
  generalize (email args) as s. intros s. split; [|split].
  - induction s as [|c s IH]; simpl; [done|]. by rewrite lower_ascii_not_upper.
  - induction s as [|c s IH]; simpl; [done|]. by rewrite IH.
  - induction s as [|c s IH]; simpl; [done|].
    intros [Hc Hs]%orb_false_elim. by rewrite (lower_ascii_fixed _ Hc), IH.
Qed.

Lemma X20_witness :
  is_ascii "test@cardtraders.app" = true
  ∧ has_upper "test@cardtraders.app" = false
  ∧ py_item "email" (user_doc (default_args "2025/01/01") "u" "h" [] 0)
    = Ok (VStr "test@cardtraders.app").
Proof.
  split; [reflexivity|]. split; [reflexivity|].
  destruct (X20_email_key_is_lower_case (default_args "2025/01/01") "u" "h" [] 0 eq_refl)
    as (key & Hk & _ & _ & Hsame).
  rewrite Hk. do 2 f_equal. by apply Hsame.
Defined.

End UserDocExtras.
